(** * extract_routes.py: landing-route resolution

    A shallow embedding of [src/extract_routes.py] and the properties of
    its index builder ([build_json_cache]), its route resolver
    ([get_route]) and its batch driver ([main]).

    Conventions of the embedding.
    - A Python [str] is a [string]: one [ascii] per code point, which
      covers the code points U+0000 to U+00FF.  On that range
      [str.isspace], [str.lower], [str.strip] and [str.replace] are
      written out below exactly as CPython computes them.
    - The dictionary [json_file_cache] is a [gmap string string].
    - A call either returns a value or raises: [outcome].
    - Files and directories are read through explicit arguments (the
      listing of a directory, the result of loading a file), so that
      every function below is a total, executable function. *)

From stdpp Require Import gmap strings list fin_maps.
From Stdlib Require Import Ascii String.

Local Open Scope string_scope.

(** ** Python string primitives *)

Module PyStr.

(** [str.isspace] for one character: TAB, LF, VT, FF, CR, the four
    separators FS, GS, RS and US, SPACE, NEL and NBSP. *)
Definition isspace (c : ascii) : bool :=
  let n := nat_of_ascii c in
  (((9 <=? n) && (n <=? 13)) || ((28 <=? n) && (n <=? 32))
   || (n =? 133) || (n =? 160))%nat.

(** [str.lower] for one character: A-Z, and the Latin-1 capitals
    U+00C0..U+00DE except the multiplication sign U+00D7. *)
Definition lower_char (c : ascii) : ascii :=
  let n := nat_of_ascii c in
  if (((65 <=? n) && (n <=? 90))
      || ((192 <=? n) && (n <=? 222) && negb (n =? 215)))%nat
  then ascii_of_nat (n + 32) else c.

Fixpoint lower (s : string) : string :=
  match s with
  | EmptyString => EmptyString
  | String c s' => String (lower_char c) (lower s')
  end.

(** Truth value of a [str]: non-empty. *)
Definition truthy (s : string) : bool :=
  match s with EmptyString => false | String _ _ => true end.

Fixpoint lstrip (s : string) : string :=
  match s with
  | EmptyString => EmptyString
  | String c s' => if isspace c then lstrip s' else s
  end.

Fixpoint rstrip (s : string) : string :=
  match s with
  | EmptyString => EmptyString
  | String c s' =>
      match rstrip s' with
      | EmptyString => if isspace c then EmptyString else String c EmptyString
      | r => String c r
      end
  end.

(** [s.strip()] with no argument. *)
Definition strip (s : string) : string := rstrip (lstrip s).

(** [s.startswith(p)]. *)
Fixpoint startswith (p s : string) : bool :=
  match p, s with
  | EmptyString, _ => true
  | String a p', String b s' => Ascii.eqb a b && startswith p' s'
  | String _ _, EmptyString => false
  end.

(** [s.endswith(p)]. *)
Definition endswith (p s : string) : bool :=
  (String.length p <=? String.length s)%nat
  && String.eqb (substring (String.length s - String.length p) (String.length p) s) p.

(** [k in s] for two strings: [k] occurs in [s]. *)
Fixpoint contains (k s : string) : bool :=
  startswith k s ||
  match s with
  | EmptyString => false
  | String _ s' => contains k s'
  end.

(** [s.replace(old, new)]: the occurrences of [old] are found from left
    to right and do not overlap.  [skip] counts the characters of a
    matched occurrence that are still to be passed over. *)
Fixpoint replace_from (old new : string) (skip : nat) (s : string) : string :=
  match s with
  | EmptyString => EmptyString
  | String c s' =>
      match skip with
      | S k => replace_from old new k s'
      | O =>
          if startswith old s
          then new +:+ replace_from old new (String.length old - 1) s'
          else String c (replace_from old new 0 s')
      end
  end.

(** With an empty [old], Python inserts [new] before every character and
    at the end. *)
Fixpoint interleave (new s : string) : string :=
  match s with
  | EmptyString => new
  | String c s' => new +:+ String c (interleave new s')
  end.

Definition replace (s old new : string) : string :=
  match old with
  | EmptyString => interleave new s
  | String _ _ => replace_from old new 0 s
  end.

(** [s[:-n]]: all but the last [n] characters. *)
Definition drop_last (n : nat) (s : string) : string :=
  substring 0 (String.length s - n) s.

(** A string made of whitespace only (the empty string included). *)
Fixpoint blank (s : string) : bool :=
  match s with
  | EmptyString => true
  | String c s' => isspace c && blank s'
  end.

End PyStr.

(** ** Values, exceptions and the outcome of a call *)

(** The exceptions the script can let escape. *)
Inductive exn : Type :=
| TypeError
| AttributeError
| OSError.

(** A call returns a value or raises. *)
Inductive outcome (A : Type) : Type :=
| Ret (a : A)
| Raise (e : exn).
Arguments Ret {A} a.
Arguments Raise {A} e.

#[global] Instance outcome_ret : MRet outcome := fun _ a => Ret a.
#[global] Instance outcome_bind : MBind outcome := fun _ _ f m =>
  match m with
  | Ret a => f a
  | Raise e => Raise e
  end.

Set Warnings "-register-all".

(** What [json.load] can build.  A float is kept as its literal: the
    script never computes with it. *)
Inductive pyval : Type :=
| PNone
| PBool (b : bool)
| PInt (z : Z)
| PFloat (lit : string)
| PStr (s : string)
| PList (l : list pyval)
| PDict (d : list (string * pyval)).

(** Lines 57-61: opening and parsing a file either fails with an
    [Exception] (kept as its message [str(e)]) or yields the parsed
    document. *)
Inductive load_result : Type :=
| LoadError (msg : string)
| Loaded (data : pyval).

(** ** Operations on parsed documents *)

(** [d[k]] on the items of a dictionary. *)
Fixpoint dict_lookup (k : string) (d : list (string * pyval)) : option pyval :=
  match d with
  | [] => None
  | (k', v) :: d' => if String.eqb k k' then Some v else dict_lookup k d'
  end.

(** [x == k] for a string [k]. *)
Definition is_str (k : string) (x : pyval) : bool :=
  match x with
  | PStr s => String.eqb s k
  | _ => false
  end.

(** [k in data]: key membership for a dictionary, element membership for
    a list, substring test for a string, [TypeError] otherwise. *)
Definition py_in (k : string) (data : pyval) : outcome bool :=
  match data with
  | PDict d => Ret (match dict_lookup k d with Some _ => true | None => false end)
  | PList l => Ret (existsb (is_str k) l)
  | PStr s => Ret (PyStr.contains k s)
  | PNone | PBool _ | PInt _ | PFloat _ => Raise TypeError
  end.

(** [data.get(k, "")]: only a dictionary has the method. *)
Definition py_get (data : pyval) (k : string) : outcome pyval :=
  match data with
  | PDict d => Ret (default (PStr "") (dict_lookup k d))
  | _ => Raise AttributeError
  end.

(** [v.strip()]: only a string has the method. *)
Definition py_strip (v : pyval) : outcome string :=
  match v with
  | PStr s => Ret (PyStr.strip s)
  | _ => Raise AttributeError
  end.

(** Lines 64 and 68, for the key [k]:
    [data.get(k, "").strip() if k in data else ""]. *)
Definition route_of_key (data : pyval) (k : string) : outcome string :=
  present ← py_in k data;
  if (present : bool) then v ← py_get data k; py_strip v else Ret "".

(** ** The script *)

Section Script.

(** [os.path.join], which the script takes from the platform. *)
Variable path_join : string -> string -> string.

Definition WORKSPACE_DIR : string :=
  "c:\Users\Manu\OneDrive\Escritorio\DBland\rutas 412".
Definition CSV_FILE : string := path_join WORKSPACE_DIR "20251112_131417.csv".
Definition PARAMS_DIR : string := path_join WORKSPACE_DIR "params_Ingestas".
Definition ATLAS_PROD_DIR : string := path_join WORKSPACE_DIR "atlas_prod-main".
Definition OUTPUT_ROUTES_FILE : string := path_join WORKSPACE_DIR "rutas_landing.txt".

(** *** build_json_cache (lines 16-41) *)

(** Lines 25-28, the loop over [os.listdir(PARAMS_DIR)]: every
    [*.json] name is assigned, whatever the cache holds. *)
Definition scan_params (json_file_cache : gmap string string)
    (listing : list string) : gmap string string :=
  foldl (fun cache filename =>
           if PyStr.endswith ".json" filename then
             let atlas_term := PyStr.drop_last 5 filename in
             <[atlas_term := path_join PARAMS_DIR filename]> cache
           else cache)
        json_file_cache listing.

(** Lines 33-39, the files of one directory of the walk: a name is
    assigned only if the cache does not hold it yet. *)
Definition scan_files (root : string) (json_file_cache : gmap string string)
    (files : list string) : gmap string string :=
  foldl (fun cache filename =>
           if PyStr.endswith ".json" filename then
             let atlas_term := PyStr.drop_last 5 filename in
             let full_path := path_join root filename in
             match cache !! atlas_term with
             | None => <[atlas_term := full_path]> cache
             | Some _ => cache
             end
           else cache)
        json_file_cache files.

(** Lines 32-39, the loop over [os.walk(ATLAS_PROD_DIR)], which yields
    [(root, dirs, files)] for every directory of the tree. *)
Definition scan_atlas (json_file_cache : gmap string string)
    (walk : list (string * list string * list string)) : gmap string string :=
  foldl (fun cache '(root, dirs, files) => scan_files root cache files)
        json_file_cache walk.

(** The two directories as the script finds them: [None] when
    [os.path.exists] is false, otherwise the listing of [PARAMS_DIR] and
    the walk of [ATLAS_PROD_DIR]. *)
Record directories : Type := {
  params_listing : option (list string);
  atlas_walk : option (list (string * list string * list string))
}.

(** [build_json_cache] updates the global [json_file_cache]; here it
    takes the dictionary and returns the updated one. *)
Definition build_json_cache (dirs : directories)
    (json_file_cache : gmap string string) : gmap string string :=
  let cache :=
    match params_listing dirs with
    | Some listing => scan_params json_file_cache listing
    | None => json_file_cache
    end in
  match atlas_walk dirs with
  | Some walk => scan_atlas cache walk
  | None => cache
  end.

(** *** get_route (lines 44-81) *)

Definition get_route (json_file_cache : gmap string string)
    (load : string -> load_result) (atlas_term entidad : string)
  : outcome (option string * option string) :=
  match json_file_cache !! atlas_term with
  | None => Ret (None, Some ("FILE_NOT_FOUND: " +:+ atlas_term +:+ ".json"))
  | Some json_file =>
      match load json_file with
      | LoadError e => Ret (None, Some ("JSON_READ_ERROR: " +:+ e))
      | Loaded data =>
          route ← route_of_key data "ruta_landing";
          route ← (if PyStr.truthy route then Ret route
                   else route_of_key data "directorio_de_archivo_en_hdfs");
          if negb (PyStr.truthy route) then
            Ret (None, Some "NO_VALID_ROUTE_KEY")
          else
            let route := PyStr.replace route "$ENTIDAD" (PyStr.lower entidad) in
            if negb (PyStr.truthy route) || negb (PyStr.truthy (PyStr.strip route))
            then Ret (None, Some "RUTA_INVALID_AFTER_REPLACEMENT")
            else Ret (Some route, None)
      end
  end.

(** *** main (lines 83-155) *)

(** A row of the dataset as [df.iterrows()] yields it: its index label,
    the columns [atlas_term] and [entidad], the cell of the column
    [ruta_landing] and the remaining columns. *)
Record row : Type := {
  row_label : string;
  row_atlas_term : string;
  row_entidad : string;
  row_ruta_landing : option string;
  row_others : list (string * string)
}.

(** The file [CSV_FILE]: [pd.read_csv] raises on it or reads a table. *)
Inductive csv_state : Type :=
| Unreadable (msg : string)
| Table (df : list row).

(** What [df.to_csv(CSV_FILE)] does in this run: it writes the table; or
    it raises [PermissionError] when the file cannot be opened for
    writing (held open by another program), leaving it as it was; or it
    raises another exception, leaving the file in some state. *)
Inductive to_csv_result : Type :=
| Written
| RaisesPermissionError
| RaisesOther (e : exn) (remains : csv_state).

(** The two files the script writes; [routes_file] is [None] while
    [OUTPUT_ROUTES_FILE] does not exist. *)
Record files : Type := {
  csv_file : csv_state;
  routes_file : option string
}.

(** What the run reads from its surroundings. *)
Record environment : Type := {
  dirs : directories;
  load : string -> load_result;
  to_csv : to_csv_result
}.

(** The two messages that announce a halted batch (lines 91 and 127).
    The progress lines and the closing summary (lines 137-155) only
    print, and are left out. *)
Inductive notice : Type :=
| ErrorReadingCsv (msg : string)
| CsvLocked.

(** How [main] ends: at one of its two early [return]s, at its last
    line, or with an exception nobody catches. *)
Inductive exit : Type :=
| ReturnedEarly
| Finished
| Uncaught (e : exn).

Record run : Type := {
  files_after : files;
  console : list notice;
  status : exit
}.

(** Lines 100-116: the loop over the rows, with its two lists. *)
Fixpoint process_rows (json_file_cache : gmap string string)
    (load : string -> load_result) (df : list row)
    (routes_list : list string) (ruta_landing_column : list (option string))
  : outcome (list string * list (option string)) :=
  match df with
  | [] => Ret (routes_list, ruta_landing_column)
  | r :: df' =>
      '(route, error) ← get_route json_file_cache load
                          (row_atlas_term r) (row_entidad r);
      match route with
      | Some route =>
          process_rows json_file_cache load df'
            (routes_list ++ [route]) (ruta_landing_column ++ [Some route])
      | None =>
          process_rows json_file_cache load df'
            routes_list (ruta_landing_column ++ [error])
      end
  end.

(** Line 119: [df['ruta_landing'] = ruta_landing_column]. *)
Definition set_ruta_landing (df : list row)
    (ruta_landing_column : list (option string)) : list row :=
  zip_with (fun r v =>
              {| row_label := row_label r;
                 row_atlas_term := row_atlas_term r;
                 row_entidad := row_entidad r;
                 row_ruta_landing := v;
                 row_others := row_others r |})
           df ruta_landing_column.

Definition LF : string := String "010" EmptyString.

(** Lines 132-134: the text written to a file opened with mode ['w']. *)
Definition write_routes (routes_list : list string) : string :=
  foldl (fun text route => text +:+ (route +:+ LF)) "" routes_list.

Definition main (env : environment) (before : files) : run :=
  let json_file_cache := build_json_cache (dirs env) ∅ in
  match csv_file before with
  | Unreadable e =>
      {| files_after := before; console := [ErrorReadingCsv e];
         status := ReturnedEarly |}
  | Table df =>
      match process_rows json_file_cache (load env) df [] [] with
      | Raise e =>
          {| files_after := before; console := []; status := Uncaught e |}
      | Ret (routes_list, ruta_landing_column) =>
          let df := set_ruta_landing df ruta_landing_column in
          match to_csv env with
          | RaisesPermissionError =>
              {| files_after := before; console := [CsvLocked];
                 status := ReturnedEarly |}
          | RaisesOther e remains =>
              {| files_after := {| csv_file := remains;
                                   routes_file := routes_file before |};
                 console := []; status := Uncaught e |}
          | Written =>
              {| files_after := {| csv_file := Table df;
                                   routes_file := Some (write_routes routes_list) |};
                 console := []; status := Finished |}
          end
      end
  end.

End Script.

(** ** Notions used to state the properties *)

(** The four tags of the error taxonomy. *)
Definition error_tags : list string :=
  ["FILE_NOT_FOUND"; "JSON_READ_ERROR"; "NO_VALID_ROUTE_KEY";
   "RUTA_INVALID_AFTER_REPLACEMENT"].

(** A result with exactly one side filled in. *)
Definition exactly_one (result : option string * option string) : Prop :=
  match result with
  | (Some _, None) | (None, Some _) => True
  | _ => False
  end.

(** The path of a successful resolution. *)
Definition resolved (o : outcome (option string * option string)) : option string :=
  match o with
  | Ret (Some route, _) => Some route
  | _ => None
  end.

(** The lines of a text: the pieces between line feeds, a last piece
    without its line feed counting only when it is not empty. *)
Fixpoint lines_from (line text : string) : list string :=
  match text with
  | EmptyString =>
      match line with EmptyString => [] | _ => [line] end
  | String c text' =>
      if Ascii.eqb c "010" then line :: lines_from "" text'
      else lines_from (line +:+ String c "") text'
  end.

Definition lines (text : string) : list string := lines_from "" text.

(** [sep.join(pieces)]. *)
Fixpoint join (sep : string) (pieces : list string) : string :=
  match pieces with
  | [] => ""
  | [p] => p
  | p :: rest => p +:+ sep +:+ join sep rest
  end.

(** A string that begins, or ends, with a whitespace character. *)
Definition leading_space (s : string) : bool :=
  match s with
  | EmptyString => false
  | String c _ => PyStr.isspace c
  end.

Fixpoint trailing_space (s : string) : bool :=
  match s with
  | EmptyString => false
  | String c EmptyString => PyStr.isspace c
  | String _ s' => trailing_space s'
  end.

(** The character [a] occurs in [s]. *)
Fixpoint occurs (a : ascii) (s : string) : bool :=
  match s with
  | EmptyString => false
  | String c s' => Ascii.eqb a c || occurs a s'
  end.

(** A token whose first character does not come back later in it: two
    occurrences of such a token never overlap. *)
Definition unbordered (old : string) : bool :=
  match old with
  | EmptyString => false
  | String a old' => negb (occurs a old')
  end.

(** The text in which every string of [routes] is followed by a line
    feed. *)
Fixpoint unlines (routes : list string) : string :=
  match routes with
  | [] => ""
  | route :: routes' => route +:+ LF +:+ unlines routes'
  end.

(** The two recognized keys. *)
Definition PRIMARY : string := "ruta_landing".
Definition FALLBACK : string := "directorio_de_archivo_en_hdfs".

(** Steps 3 and 4 of the resolver: under the key [k] the configuration
    [d] holds the path value [v], or holds nothing that counts (the key
    is missing, or its string is empty once trimmed). *)
Definition holds (d : list (string * pyval)) (k v : string) : Prop :=
  dict_lookup k d = Some (PStr v) /\ PyStr.strip v <> "".

Definition absent (d : list (string * pyval)) (k : string) : Prop :=
  dict_lookup k d = None \/
  exists s, dict_lookup k d = Some (PStr s) /\ PyStr.strip s = "".

(** The value the resolver selects: the primary one, or the fallback one
    when the primary key is absent. *)
Definition selected (d : list (string * pyval)) (v : string) : Prop :=
  holds d PRIMARY v \/ (absent d PRIMARY /\ holds d FALLBACK v).

(** A configuration whose recognized keys, where present, hold strings. *)
Definition string_valued (data : pyval) : Prop :=
  exists d, data = PDict d /\
    forall k v, k = PRIMARY \/ k = FALLBACK ->
      dict_lookup k d = Some v -> exists s, v = PStr s.

(** The file name [filename] is a configuration file for the term [t]
    (lines 26-27 and 34-35). *)
Definition names_term (filename t : string) : Prop :=
  PyStr.endswith ".json" filename = true /\ PyStr.drop_last 5 filename = t.

(** None of [files] is a configuration file for the term [t]. *)
Definition no_config_for (t : string) (files : list string) : Prop :=
  forall filename, filename ∈ files -> ~ names_term filename t.

(** The term [t] is found in the flat directory, or in the tree. *)
Definition in_params (ds : directories) (t : string) : Prop :=
  exists listing filename,
    params_listing ds = Some listing /\ filename ∈ listing /\
    names_term filename t.

Definition in_atlas (ds : directories) (t : string) : Prop :=
  exists walk root subdirs files filename,
    atlas_walk ds = Some walk /\ (root, subdirs, files) ∈ walk /\
    filename ∈ files /\ names_term filename t.

(** The resolved paths of a table, in row order. *)
Definition successes (json_file_cache : gmap string string)
    (load : string -> load_result) (df : list row) : list string :=
  omap (fun r => resolved (get_route json_file_cache load
                             (row_atlas_term r) (row_entidad r))) df.

(** What the column [ruta_landing] receives for a row. *)
Definition cell (o : outcome (option string * option string)) : option string :=
  match o with
  | Ret (Some route, _) => Some route
  | Ret (None, error) => error
  | Raise _ => None
  end.

(** *** Sample inputs *)

(** An index with one term, and the loading of its file. *)
Definition sample_cache : gmap string string :=
  {[ "ventas" := "params\ventas.json" ]}.

Definition serving (data : pyval) (file : string) : load_result :=
  if String.eqb file "params\ventas.json" then Loaded data
  else LoadError "[Errno 2] No such file or directory".

(** A standard [os.path.join] for the examples: Windows separator. *)
Definition win_join (a b : string) : string := a +:+ "\" +:+ b.

(** Two directories, the loading of their files, and a table. *)
Definition sample_dirs : directories :=
  {| params_listing := Some ["ventas.json"; "notes.txt"];
     atlas_walk := Some [("atlas", ["sub"], ["ventas.json"; "stock.json"])] |}.

Definition sample_load (file : string) : load_result :=
  if String.eqb file (win_join (PARAMS_DIR win_join) "ventas.json") then
    Loaded (PDict [("ruta_landing", PStr " /data/$ENTIDAD/raw ")])
  else if String.eqb file (win_join "atlas" "stock.json") then
    Loaded (PDict [("directorio_de_archivo_en_hdfs", PStr "/hdfs/$ENTIDAD/stock")])
  else LoadError "[Errno 2] No such file or directory".

Definition sample_row (label t ent : string) : row :=
  {| row_label := label; row_atlas_term := t; row_entidad := ent;
     row_ruta_landing := None; row_others := [] |}.

Definition sample_rows : list row :=
  [sample_row "0" "ventas" "ACME"; sample_row "1" "clientes" "ACME";
   sample_row "2" "stock" "Beta"].

Definition sample_env (write : to_csv_result) : environment :=
  {| dirs := sample_dirs; load := sample_load; to_csv := write |}.

Definition sample_before : files :=
  {| csv_file := Table sample_rows; routes_file := Some "stale" |}.

(** The same surroundings with a configuration whose primary key holds
    a number. *)
Definition numeric_config : pyval := PDict [("ruta_landing", PInt 123)].

Definition numeric_env : environment :=
  {| dirs := sample_dirs; load := fun _ => Loaded numeric_config;
     to_csv := Written |}.

(** *** The closing summary (lines 137-150)

    [main] ends by printing what follows; the definitions below compute
    it from the table and the two lists of the row loop. *)

(** [error.split(":")[0]]: the text before the first colon. *)
Fixpoint split_head (s : string) : string :=
  match s with
  | EmptyString => EmptyString
  | String c s' => if Ascii.eqb c ":" then EmptyString else String c (split_head s')
  end.

(** The test of line 148 on a cell that is a string. *)
Definition counted (error : string) : bool :=
  PyStr.startswith "RUTA_" error || PyStr.startswith "FILE_" error
  || PyStr.startswith "JSON_" error.

(** Lines 148-150, one turn of the loop over [ruta_landing_column]. *)
Definition count_error (error_counts : gmap string nat)
    (error : option string) : gmap string nat :=
  match error with
  | Some error =>
      if counted error then
        let error_type := split_head error in
        <[error_type := default 0 (error_counts !! error_type) + 1]> error_counts
      else error_counts
  | None => error_counts
  end.

(** Lines 146-150. *)
Definition count_errors (ruta_landing_column : list (option string))
  : gmap string nat :=
  foldl count_error ∅ ruta_landing_column.

(** Lines 141-150: the three numbers and the dictionary of the summary. *)
Record summary : Type := {
  total_rows : nat;
  successful_routes : nat;
  failed_routes : nat;
  error_counts : gmap string nat
}.

Definition summarize (df : list row) (routes_list : list string)
    (ruta_landing_column : list (option string)) : summary :=
  {| total_rows := List.length df;
     successful_routes := List.length routes_list;
     failed_routes := List.length df - List.length routes_list;
     error_counts := count_errors ruta_landing_column |}.

(** The summary of a run of [main] that gets to line 137. *)
Definition main_summary (path_join : string -> string -> string)
    (env : environment) (before : files) : option summary :=
  match csv_file before with
  | Unreadable _ => None
  | Table df =>
      match process_rows (build_json_cache path_join (dirs env) ∅)
              (load env) df [] [] with
      | Raise _ => None
      | Ret (routes_list, ruta_landing_column) =>
          match to_csv env with
          | Written => Some (summarize df routes_list ruta_landing_column)
          | _ => None
          end
      end
  end.

(** *** Further notions *)


(** A row with its cell of [ruta_landing] filled in from the resolver. *)
Definition resolve_row (json_file_cache : gmap string string)
    (load : string -> load_result) (r : row) : row :=
  {| row_label := row_label r;
     row_atlas_term := row_atlas_term r;
     row_entidad := row_entidad r;
     row_ruta_landing :=
       cell (get_route json_file_cache load (row_atlas_term r) (row_entidad r));
     row_others := row_others r |}.

(** The index entry [loc] of the term [t] comes from a file of the flat
    directory, or of the tree. *)
Definition from_params (path_join : string -> string -> string)
    (ds : directories) (t loc : string) : Prop :=
  exists listing filename,
    params_listing ds = Some listing /\ filename ∈ listing /\
    names_term filename t /\ loc = path_join (PARAMS_DIR path_join) filename.

Definition from_atlas (path_join : string -> string -> string)
    (ds : directories) (t loc : string) : Prop :=
  exists walk root subdirs files filename,
    atlas_walk ds = Some walk /\ (root, subdirs, files) ∈ walk /\
    filename ∈ files /\ names_term filename t /\ loc = path_join root filename.

(** The rows whose term the index does not hold. *)
Definition not_indexed (json_file_cache : gmap string string)
    (df : list row) : list row :=
  filter (fun r => json_file_cache !! row_atlas_term r = None) df.

(** The cell [error] adds one to the count kept under [error_type]. *)
Definition counts_as (error_type : string) (error : option string) : bool :=
  match error with
  | Some error => counted error && String.eqb (split_head error) error_type
  | None => false
  end.

Example strip_ex : PyStr.strip "  /a b/ " = "/a b/".
Proof. reflexivity. Qed.

Example replace_ex :
  PyStr.replace "/d/$ENTIDAD/$ENTIDAD" "$ENTIDAD" "x" = "/d/x/x".
Proof. reflexivity. Qed.

Example endswith_ex : PyStr.endswith ".json" "a.json" = true.
Proof. reflexivity. Qed.

(** ** Facts about the string primitives *)

#[local] Arguments String.append !_ _ : simpl nomatch.
#[local] Arguments Ascii.eqb : simpl never.

Module PyStrFacts.
Import PyStr.

Lemma string_app_nil_r s : s +:+ "" = s.
Proof. induction s as [|c s IH]; simpl; [done | by rewrite IH]. Qed.

Lemma string_app_assoc s1 s2 s3 : (s1 +:+ s2) +:+ s3 = s1 +:+ (s2 +:+ s3).
Proof. induction s1 as [|c s1 IH]; simpl; [done | by rewrite IH]. Qed.

Lemma truthy_false s : truthy s = false <-> s = "".
Proof. destruct s; simpl; split; congruence. Qed.

Lemma truthy_true s : truthy s = true <-> s <> "".
Proof. destruct s; simpl; split; congruence. Qed.

Lemma blank_app l r : blank (l +:+ r) = blank l && blank r.
Proof.
  induction l as [|c l IH]; simpl; [done |].
  rewrite IH. by rewrite andb_assoc.
Qed.

Lemma lstrip_empty s : lstrip s = "" <-> blank s = true.
Proof.
  induction s as [|c s IH]; simpl; [done |].
  destruct (isspace c); simpl; [done |]. split; congruence.
Qed.

Lemma rstrip_empty s : rstrip s = "" <-> blank s = true.
Proof.
  induction s as [|c s IH]; simpl; [done |].
  destruct (rstrip s) as [|c' r] eqn:Hr.
  - destruct (isspace c); simpl.
    + split; [intros _; by apply IH | done].
    + split; congruence.
  - split; [congruence |]. intros [_ Hb]%andb_prop.
    apply IH in Hb. congruence.
Qed.

Lemma lstrip_leading s : leading_space (lstrip s) = false.
Proof.
  induction s as [|c s IH]; simpl; [done |].
  destruct (isspace c) eqn:Hc; [done |]. simpl. by rewrite Hc.
Qed.

Lemma blank_leading s : s <> "" -> blank s = true -> leading_space s = true.
Proof. destruct s as [|c s]; simpl; [done |]. by intros _ [? _]%andb_prop. Qed.

Lemma blank_lstrip s : blank (lstrip s) = blank s.
Proof.
  induction s as [|c s IH]; simpl; [done |].
  destruct (isspace c) eqn:Hc; simpl; [done |]. by rewrite Hc.
Qed.

Lemma strip_empty s : strip s = "" <-> blank s = true.
Proof. unfold strip. rewrite rstrip_empty. by rewrite blank_lstrip. Qed.

Lemma strip_nonempty s : strip s <> "" <-> blank s = false.
Proof. rewrite strip_empty. destruct (blank s); split; congruence. Qed.

Lemma lstrip_split s : exists l, s = l +:+ lstrip s /\ blank l = true.
Proof.
  induction s as [|c s (l & Hl & Hb)]; simpl.
  - by exists "".
  - destruct (isspace c) eqn:Hc.
    + exists (String c l). simpl. rewrite Hc, Hb. by rewrite <- Hl.
    + by exists "".
Qed.

Lemma rstrip_split s : exists r, s = rstrip s +:+ r /\ blank r = true.
Proof.
  induction s as [|c s (r & Hr & Hb)]; simpl.
  - by exists "".
  - destruct (rstrip s) as [|c' t] eqn:Ht.
    + simpl in Hr. subst r. destruct (isspace c) eqn:Hc.
      * exists (String c s). simpl. by rewrite Hc, Hb.
      * by exists s.
    + exists r. simpl in *. by rewrite <- Hr.
Qed.

Lemma strip_split s :
  exists l r, s = l +:+ strip s +:+ r /\ blank l = true /\ blank r = true.
Proof.
  destruct (lstrip_split s) as (l & Hl & Hbl).
  destruct (rstrip_split (lstrip s)) as (r & Hr & Hbr).
  exists l, r. unfold strip. by rewrite <- Hr, <- Hl.
Qed.

Lemma rstrip_trailing s : trailing_space (rstrip s) = false.
Proof.
  induction s as [|c s IH]; simpl; [done |].
  destruct (rstrip s) as [|c' t] eqn:Ht.
  - destruct (isspace c) eqn:Hc; simpl; [done | by rewrite Hc].
  - exact IH.
Qed.

Lemma rstrip_leading s : leading_space s = false -> leading_space (rstrip s) = false.
Proof.
  destruct s as [|c s]; simpl; [done |]. intros Hc.
  destruct (rstrip s); [by rewrite Hc | done].
Qed.

Lemma strip_trimmed s :
  leading_space (strip s) = false /\ trailing_space (strip s) = false.
Proof.
  split; [apply rstrip_leading, lstrip_leading | apply rstrip_trailing].
Qed.

Lemma strip_blank s : blank s = true -> strip s = "".
Proof. apply strip_empty. Qed.

(** The test of line 78, [not route or not route.strip()], holds exactly
    of the whitespace-only strings. *)
Lemma invalid_iff_blank s :
  negb (truthy s) || negb (truthy (strip s)) = blank s.
Proof.
  destruct (blank s) eqn:Hb.
  - apply strip_empty in Hb. rewrite Hb. simpl. by rewrite orb_true_r.
  - apply strip_nonempty in Hb.
    assert (s <> "") as Hs by (intros ->; by apply Hb).
    apply truthy_true in Hb, Hs. by rewrite Hb, Hs.
Qed.

(** *** [startswith] and [replace] *)

Lemma startswith_app p s : startswith p (p +:+ s) = true.
Proof.
  induction p as [|a p IH]; simpl; [done |].
  by rewrite Ascii.eqb_refl, IH.
Qed.

Lemma startswith_spec p s : startswith p s = true <-> exists rest, s = p +:+ rest.
Proof.
  split.
  - revert s. induction p as [|a p IH]; intros s H; simpl in *.
    + by exists s.
    + destruct s as [|b s]; [done |].
      apply andb_prop in H as [Hab Hp]. apply Ascii.eqb_eq in Hab as ->.
      destruct (IH _ Hp) as [rest ->]. by exists rest.
  - intros [rest ->]. apply startswith_app.
Qed.

(** A prefix of [x +:+ y] either is a prefix of [x] or runs over into [y]. *)
Lemma startswith_app_inv u x y :
  startswith u (x +:+ y) = true ->
  startswith u x = true \/
  exists w, u = x +:+ w /\ w <> "" /\ startswith w y = true.
Proof.
  revert u. induction x as [|c x IH]; intros u H; simpl in *.
  - destruct u as [|a u]; [by left |]. right. by exists (String a u).
  - destruct u as [|a u]; [by left |]. simpl in *.
    apply andb_prop in H as [Hac Hu]. apply Ascii.eqb_eq in Hac as ->.
    destruct (IH _ Hu) as [Hl | (w & -> & Hw & Hs)].
    + left. by rewrite Ascii.eqb_refl.
    + right. by exists w.
Qed.

Lemma occurs_app a x y : occurs a (x +:+ y) = occurs a x || occurs a y.
Proof.
  induction x as [|c x IH]; simpl; [done |].
  rewrite IH. by rewrite orb_assoc.
Qed.

Lemma unbordered_nonempty old : unbordered old = true -> old <> "".
Proof. by destruct old. Qed.

(** No occurrence of an unbordered token starts inside the text that
    precedes an occurrence, unless it lies inside that text. *)
Lemma startswith_straddle old x rest :
  unbordered old = true -> x <> "" -> startswith old x = false ->
  startswith old (x +:+ old +:+ rest) = false.
Proof.
  intros Hu Hx Hn.
  destruct (startswith old (x +:+ old +:+ rest)) eqn:H; [| done].
  apply startswith_app_inv in H as [H | (w & Hold & Hw & Hs)]; [congruence |].
  destruct old as [|a old']; [done |].
  destruct x as [|c x']; [done |].
  destruct w as [|b w']; [done |].
  simpl in Hold, Hs, Hu. injection Hold as -> ->.
  apply andb_prop in Hs as [Hb _]. apply Ascii.eqb_eq in Hb as ->.
  rewrite occurs_app in Hu. simpl in Hu.
  rewrite Ascii.eqb_refl in Hu. simpl in Hu.
  by rewrite orb_true_r in Hu.
Qed.

Lemma replace_from_skip old new p s :
  replace_from old new (String.length p) (p +:+ s) = replace_from old new 0 s.
Proof. induction p as [|c p IH]; simpl; [done | exact IH]. Qed.

Lemma replace_empty old new : old <> "" -> replace "" old new = "".
Proof. by destruct old. Qed.

(** An occurrence at the head is replaced, and the scan goes on behind it. *)
Lemma replace_occurrence old new rest :
  old <> "" -> replace (old +:+ rest) old new = new +:+ replace rest old new.
Proof.
  destruct old as [|a old']; [done |]. intros _. unfold replace.
  change (String a old' +:+ rest) with (String a (old' +:+ rest)).
  cbn [replace_from].
  change (String a (old' +:+ rest)) with (String a old' +:+ rest).
  rewrite startswith_app. f_equal.
  replace (String.length (String a old') - 1) with (String.length old')
    by (simpl; lia).
  apply replace_from_skip.
Qed.

(** A character that starts no occurrence is copied. *)
Lemma replace_other old new c s :
  old <> "" -> startswith old (String c s) = false ->
  replace (String c s) old new = String c (replace s old new).
Proof.
  destruct old as [|a old']; [done |]. intros _ H. unfold replace.
  cbn [replace_from]. by rewrite H.
Qed.

(** A text in which the token does not occur is left as it is. *)
Lemma replace_absent old new p :
  old <> "" -> contains old p = false -> replace p old new = p.
Proof.
  intros Hold. induction p as [|c p IH]; intros H.
  - by apply replace_empty.
  - simpl in H. apply orb_false_elim in H as [Hs Hc].
    rewrite replace_other by done. by rewrite IH.
Qed.

Lemma replace_piece old new p rest :
  unbordered old = true -> contains old p = false ->
  replace (p +:+ old +:+ rest) old new = p +:+ new +:+ replace rest old new.
Proof.
  intros Hu. pose proof (unbordered_nonempty _ Hu) as Hold.
  induction p as [|c p IH]; intros H.
  - simpl. by apply replace_occurrence.
  - simpl in H. apply orb_false_elim in H as [Hs Hc].
    change (String c p +:+ old +:+ rest) with (String c (p +:+ old +:+ rest)).
    rewrite replace_other; [by rewrite IH | done |].
    change (String c (p +:+ old +:+ rest)) with (String c p +:+ old +:+ rest).
    by apply startswith_straddle.
Qed.

(** Literal replacement of every occurrence: a text cut at the
    occurrences of the token is rebuilt with [new] in their place. *)
Lemma replace_join old new pieces :
  unbordered old = true ->
  Forall (fun p => contains old p = false) pieces ->
  replace (join old pieces) old new = join new pieces.
Proof.
  intros Hu. pose proof (unbordered_nonempty _ Hu) as Hold.
  induction pieces as [|p [|q pieces] IH]; intros Hall.
  - by apply replace_empty.
  - simpl. apply replace_absent; [done |]. by inversion Hall.
  - inversion Hall as [|? ? Hp Hrest]; subst.
    change (join old (p :: q :: pieces)) with (p +:+ old +:+ join old (q :: pieces)).
    rewrite replace_piece by done. by rewrite IH.
Qed.

(** *** File names *)

Lemma substring_all s : substring 0 (String.length s) s = s.
Proof. induction s as [|c s IH]; simpl; [done | by rewrite IH]. Qed.

Lemma substring_split n s :
  n <= String.length s ->
  s = substring 0 n s +:+ substring n (String.length s - n) s.
Proof.
  revert s. induction n as [|n IH]; intros s Hn.
  - rewrite Nat.sub_0_r, substring_all. by destruct s.
  - destruct s as [|c s]; simpl in *; [lia |].
    f_equal. apply IH. lia.
Qed.

(** A name that ends in [.json] is its term followed by [.json]. *)
Lemma endswith_drop_last filename :
  endswith ".json" filename = true ->
  filename = drop_last 5 filename +:+ ".json".
Proof.
  unfold endswith, drop_last. intros [Hlen Hsub]%andb_prop.
  apply Nat.leb_le in Hlen. apply String.eqb_eq in Hsub.
  change (String.length ".json") with 5 in *.
  rewrite (substring_split (String.length filename - 5) filename) at 1 by lia.
  f_equal.
  replace (String.length filename - (String.length filename - 5)) with 5 by lia.
  exact Hsub.
Qed.

Lemma names_term_eq filename t : names_term filename t -> filename = t +:+ ".json".
Proof. intros [He <-]. by apply endswith_drop_last. Qed.

(** *** Lines *)

Lemma write_routes_from text routes :
  foldl (fun text route => text +:+ (route +:+ LF)) text routes
  = text +:+ unlines routes.
Proof.
  revert text. induction routes as [|r routes IH]; intros text; simpl.
  - by rewrite string_app_nil_r.
  - rewrite IH. by rewrite !string_app_assoc.
Qed.

Lemma write_routes_unlines routes : write_routes routes = unlines routes.
Proof. unfold write_routes. by rewrite write_routes_from. Qed.

Lemma lines_from_line line route rest :
  occurs "010" route = false ->
  lines_from line (route +:+ LF +:+ rest) = (line +:+ route) :: lines_from "" rest.
Proof.
  revert line. induction route as [|c route IH]; intros line H; simpl in *.
  - by rewrite string_app_nil_r.
  - apply orb_false_elim in H as [Hc Hr].
    rewrite Ascii.eqb_sym, Hc. rewrite IH by done.
    by rewrite string_app_assoc.
Qed.

(** Read back line by line, the written text gives the list again,
    provided no route contains a line feed. *)
Lemma lines_unlines routes :
  Forall (fun route => occurs "010" route = false) routes ->
  lines (unlines routes) = routes.
Proof.
  unfold lines. induction 1 as [|r routes Hr _ IH]; [done |].
  cbn [unlines]. rewrite lines_from_line by done. by rewrite IH.
Qed.

End PyStrFacts.

(** ** The route resolver *)

Module Resolver.
Import PyStr PyStrFacts.

Lemma bind_ret {A B} (a : A) (f : A -> outcome B) : Ret a ≫= f = f a.
Proof. reflexivity. Qed.


(** Lines 64 and 68 on a dictionary. *)
Lemma route_of_key_dict d k :
  route_of_key (PDict d) k =
  match dict_lookup k d with
  | None => Ret ""
  | Some (PStr s) => Ret (strip s)
  | Some _ => Raise AttributeError
  end.
Proof.
  unfold route_of_key, py_in, py_get. rewrite bind_ret.
  destruct (dict_lookup k d) as [v|]; [| done].
  rewrite bind_ret. by destruct v.
Qed.

Lemma route_of_key_absent d k : absent d k -> route_of_key (PDict d) k = Ret "".
Proof.
  rewrite route_of_key_dict. intros [-> | (s & -> & Hs)]; [done |].
  by rewrite Hs.
Qed.

Lemma route_of_key_holds d k v :
  holds d k v -> route_of_key (PDict d) k = Ret (strip v).
Proof. rewrite route_of_key_dict. by intros [-> _]. Qed.

Lemma route_of_key_string_valued data k :
  string_valued data -> k = PRIMARY \/ k = FALLBACK ->
  exists s, route_of_key data k = Ret s.
Proof.
  intros (d & -> & Hd) Hk. rewrite route_of_key_dict.
  destruct (dict_lookup k d) as [v|] eqn:Hv; [| by eexists].
  destruct (Hd k v Hk Hv) as [s ->]. by eexists.
Qed.

(** Lines 70-81, once a route value has been read. *)
Lemma get_route_tail cache load t ent file data r1 r2 :
  cache !! t = Some file -> load file = Loaded data ->
  route_of_key data "ruta_landing" = Ret r1 ->
  (if truthy r1 then Ret r1
   else route_of_key data "directorio_de_archivo_en_hdfs") = Ret r2 ->
  get_route cache load t ent =
    if truthy r2 then
      let route := replace r2 "$ENTIDAD" (lower ent) in
      if blank route then Ret (None, Some "RUTA_INVALID_AFTER_REPLACEMENT")
      else Ret (Some route, None)
    else Ret (None, Some "NO_VALID_ROUTE_KEY").
Proof.
  intros Hc Hl H1 H2. unfold get_route. rewrite Hc, Hl, H1, bind_ret.
  rewrite H2, bind_ret. destruct (truthy r2); [| done].
  cbn [negb]. cbv zeta. by rewrite invalid_iff_blank.
Qed.

(** The resolver on a configuration with a selected value. *)
Lemma get_route_selected cache load t ent file d v :
  cache !! t = Some file -> load file = Loaded (PDict d) -> selected d v ->
  get_route cache load t ent =
    let route := replace (strip v) "$ENTIDAD" (lower ent) in
    if blank route then Ret (None, Some "RUTA_INVALID_AFTER_REPLACEMENT")
    else Ret (Some route, None).
Proof.
  intros Hc Hl Hs.
  assert (truthy (strip v) = true) as Hv.
  { apply truthy_true. destruct Hs as [[_ ?] | [_ [_ ?]]]; done. }
  destruct Hs as [Hp | [Ha Hf]].
  - rewrite (get_route_tail cache load t ent file (PDict d) (strip v) (strip v)
               Hc Hl); [by rewrite Hv | | by rewrite Hv].
    by apply route_of_key_holds.
  - rewrite (get_route_tail cache load t ent file (PDict d) "" (strip v)
               Hc Hl); [by rewrite Hv | |].
    + by apply route_of_key_absent.
    + simpl. by apply route_of_key_holds.
Qed.

(** The resolver on a configuration where both keys are absent. *)
Lemma get_route_absent cache load t ent file d :
  cache !! t = Some file -> load file = Loaded (PDict d) ->
  absent d PRIMARY -> absent d FALLBACK ->
  get_route cache load t ent = Ret (None, Some "NO_VALID_ROUTE_KEY").
Proof.
  intros Hc Hl Hp Hf.
  rewrite (get_route_tail cache load t ent file (PDict d) "" "" Hc Hl); [done | |].
  - by apply route_of_key_absent.
  - simpl. by apply route_of_key_absent.
Qed.

(** C1. Whatever [get_route] returns has exactly one of its two sides
    filled in, a resolved path or an error code, and a resolved path is
    never the empty string; and [get_route] does return whenever the
    configuration it reads, if any, is string-valued. *)
Theorem get_route_exactly_one cache load t ent :
  (forall result, get_route cache load t ent = Ret result ->
     exactly_one result /\ forall route, result.1 = Some route -> route <> "")
  /\ ((forall file data, cache !! t = Some file -> load file = Loaded data ->
         string_valued data) ->
      exists result, get_route cache load t ent = Ret result).
Proof.
  split.
  - intros result. unfold get_route.
    destruct (cache !! t) as [file|]; [| by intros [= <-]].
    destruct (load file) as [msg | data]; [by intros [= <-] |].
    destruct (route_of_key data "ruta_landing") as [r1 | e]; [| done].
    rewrite bind_ret.
    destruct (if truthy r1 then Ret r1 else _) as [r2 | e]; [| done].
    rewrite bind_ret. destruct (truthy r2); cbn [negb]; [| by intros [= <-]].
    cbv zeta. rewrite invalid_iff_blank.
    generalize (replace r2 "$ENTIDAD" (lower ent)). intros route.
    destruct (blank route) eqn:Hb; intros [= <-]; [done |].
    split; [done |]. intros ? [= <-] ->. done.
  - intros Hdata. unfold get_route.
    destruct (cache !! t) as [file|] eqn:Hc; [| by eexists].
    destruct (load file) as [msg | data] eqn:Hl; [by eexists |].
    pose proof (Hdata _ _ eq_refl Hl) as Hsv.
    destruct (route_of_key_string_valued data PRIMARY Hsv) as [r1 H1]; [by left |].
    destruct (route_of_key_string_valued data FALLBACK Hsv) as [r2 H2]; [by right |].
    unfold PRIMARY, FALLBACK in *. rewrite H1, bind_ret, H2.
    destruct (truthy r1); rewrite bind_ret.
    + destruct (negb _); [by eexists |]. destruct (_ || _); by eexists.
    + destruct (negb _); [by eexists |]. destruct (_ || _); by eexists.
Qed.

(** C6. An identifier that the index does not hold resolves, whatever
    the entity name, to the error [FILE_NOT_FOUND] followed by the
    identifier (as the file name [<identifier>.json]); the call returns,
    it does not raise. *)
Theorem get_route_file_not_found cache load t ent :
  cache !! t = None ->
  get_route cache load t ent
  = Ret (None, Some ("FILE_NOT_FOUND: " +:+ t +:+ ".json")).
Proof. intros H. unfold get_route. by rewrite H. Qed.

(** C2, as the code has it.  A whitespace-only primary value counts as
    absent: when the fallback key is absent too, resolution fails with
    [NO_VALID_ROUTE_KEY].  When substitution on the selected value leaves
    an empty or whitespace-only string, resolution fails with
    [RUTA_INVALID_AFTER_REPLACEMENT]. *)
Theorem get_route_whitespace_only cache load t ent file d :
  cache !! t = Some file -> load file = Loaded (PDict d) ->
  (forall v, dict_lookup PRIMARY d = Some (PStr v) -> blank v = true ->
     absent d FALLBACK ->
     get_route cache load t ent = Ret (None, Some "NO_VALID_ROUTE_KEY"))
  /\ (forall v, selected d v ->
        blank (replace (strip v) "$ENTIDAD" (lower ent)) = true ->
        get_route cache load t ent
        = Ret (None, Some "RUTA_INVALID_AFTER_REPLACEMENT")).
Proof.
  intros Hc Hl. split.
  - intros v Hv Hb Hf. apply (get_route_absent _ _ _ _ _ _ Hc Hl); [| done].
    right. exists v. split; [done | by apply strip_blank].
  - intros v Hs Hb. rewrite (get_route_selected _ _ _ _ _ _ _ Hc Hl Hs).
    cbv zeta. by rewrite Hb.
Qed.

(** C4. The selected value, trimmed, has every occurrence of the literal
    token [$ENTIDAD] replaced by the lowercased entity name: cut at its
    occurrences of the token, the value is put together again with the
    lowercased entity name between the pieces. *)
Theorem get_route_substitutes_placeholder cache load t ent file d v :
  cache !! t = Some file -> load file = Loaded (PDict d) -> selected d v ->
  get_route cache load t ent
  = (let route := replace (strip v) "$ENTIDAD" (lower ent) in
     if blank route then Ret (None, Some "RUTA_INVALID_AFTER_REPLACEMENT")
     else Ret (Some route, None))
  /\ forall pieces,
       strip v = join "$ENTIDAD" pieces ->
       Forall (fun p => contains "$ENTIDAD" p = false) pieces ->
       replace (strip v) "$ENTIDAD" (lower ent) = join (lower ent) pieces.
Proof.
  intros Hc Hl Hs. split.
  - by apply (get_route_selected _ _ _ _ file d).
  - intros pieces -> Hall. by apply replace_join.
Qed.

(** C5. When the primary key is absent (missing, or empty once trimmed)
    and the fallback key holds a string, resolution is that of a
    configuration holding this string under the primary key: same
    absence rule, same substitution, same validation. *)
Theorem get_route_fallback cache load t ent file d v :
  cache !! t = Some file -> load file = Loaded (PDict d) ->
  absent d PRIMARY -> dict_lookup FALLBACK d = Some (PStr v) ->
  get_route cache load t ent
  = get_route cache (fun _ => Loaded (PDict [(PRIMARY, PStr v)])) t ent
  /\ (strip v <> "" ->
      get_route cache load t ent
      = let route := replace (strip v) "$ENTIDAD" (lower ent) in
        if blank route then Ret (None, Some "RUTA_INVALID_AFTER_REPLACEMENT")
        else Ret (Some route, None)).
Proof.
  intros Hc Hl Ha Hf.
  assert (strip v <> "" ->
          get_route cache load t ent
          = let route := replace (strip v) "$ENTIDAD" (lower ent) in
            if blank route then Ret (None, Some "RUTA_INVALID_AFTER_REPLACEMENT")
            else Ret (Some route, None)) as Hsel.
  { intros Hv. apply (get_route_selected _ _ _ _ file d); [done | done |].
    right. by split. }
  split; [| done].
  destruct (decide (strip v = "")) as [He | Hne].
  - rewrite (get_route_absent _ _ _ _ _ _ Hc Hl Ha);
      [| right; by exists v].
    symmetry. apply (get_route_absent _ _ _ _ file [(PRIMARY, PStr v)]);
      [done | done | right; by exists v | by left].
  - rewrite (Hsel Hne). symmetry.
    apply (get_route_selected _ _ _ _ file [(PRIMARY, PStr v)]); [done | done |].
    left. by split.
Qed.

(** C10. The selected value is trimmed before the substitution: it is
    its trimmed part between two runs of whitespace, the trimmed part
    neither begins nor ends with whitespace, and the resolved path is
    the trimmed part with [$ENTIDAD] replaced. *)
Theorem get_route_trims cache load t ent file d v :
  cache !! t = Some file -> load file = Loaded (PDict d) -> selected d v ->
  (exists l r, v = l +:+ strip v +:+ r /\ blank l = true /\ blank r = true)
  /\ leading_space (strip v) = false
  /\ trailing_space (strip v) = false
  /\ get_route cache load t ent
     = (let route := replace (strip v) "$ENTIDAD" (lower ent) in
        if blank route then Ret (None, Some "RUTA_INVALID_AFTER_REPLACEMENT")
        else Ret (Some route, None)).
Proof.
  intros Hc Hl Hs. split; [apply strip_split |].
  destruct (strip_trimmed v) as [Hlead Htrail].
  repeat split; [done | done |].
  by apply (get_route_selected _ _ _ _ file d).
Qed.

(** C7, at a configuration whose primary key holds a number: the call
    [.strip()] of line 64 raises [AttributeError], which nothing in
    [get_route] or in the loop of [main] catches, so the batch stops
    there with both files as they were. *)
Theorem get_route_non_string_raises :
  get_route sample_cache (serving numeric_config) "ventas" "ACME"
  = Raise AttributeError
  /\ status (main win_join numeric_env sample_before) = Uncaught AttributeError
  /\ files_after (main win_join numeric_env sample_before) = sample_before.
Proof. vm_compute. done. Qed.

(** The error of a failed resolution starts with one of the four tags. *)
Lemma get_route_error_tag cache load t ent route e :
  get_route cache load t ent = Ret (route, Some e) ->
  exists tag, tag ∈ error_tags /\ startswith tag e = true.
Proof.
  unfold get_route.
  destruct (cache !! t) as [file|].
  - destruct (load file) as [msg | data].
    + intros [= <- <-]. exists "JSON_READ_ERROR".
      split; [set_solver | apply (startswith_app "JSON_READ_ERROR" (": " +:+ msg))].
    + destruct (route_of_key data "ruta_landing") as [r1 | ?]; [| done].
      rewrite bind_ret.
      destruct (if truthy r1 then Ret r1 else _) as [r2 | ?]; [| done].
      rewrite bind_ret. destruct (negb (truthy r2)).
      * intros [= <- <-]. exists "NO_VALID_ROUTE_KEY". split; [set_solver | done].
      * cbv zeta. destruct (_ || _); [| done].
        intros [= <- <-]. exists "RUTA_INVALID_AFTER_REPLACEMENT".
        split; [set_solver | done].
  - intros [= <- <-]. exists "FILE_NOT_FOUND".
    split; [set_solver | apply (startswith_app "FILE_NOT_FOUND" (": " +:+ t +:+ ".json"))].
Qed.

End Resolver.

(** ** The index builder *)

Section IndexBuilder.
Import PyStr PyStrFacts.

Variable path_join : string -> string -> string.

Lemma scan_params_cons cache filename listing :
  scan_params path_join cache (filename :: listing)
  = scan_params path_join
      (if endswith ".json" filename
       then <[drop_last 5 filename := path_join (PARAMS_DIR path_join) filename]> cache
       else cache) listing.
Proof. reflexivity. Qed.

Lemma scan_files_cons root cache filename files :
  scan_files path_join root cache (filename :: files)
  = scan_files path_join root
      (if endswith ".json" filename then
         match cache !! drop_last 5 filename with
         | None => <[drop_last 5 filename := path_join root filename]> cache
         | Some _ => cache
         end
       else cache) files.
Proof. reflexivity. Qed.

Lemma scan_atlas_cons cache root subdirs files walk :
  scan_atlas path_join cache ((root, subdirs, files) :: walk)
  = scan_atlas path_join (scan_files path_join root cache files) walk.
Proof. reflexivity. Qed.

(** The flat scan never replaces the flat location of a term. *)
Lemma scan_params_keep t filename listing : forall cache,
  names_term filename t ->
  cache !! t = Some (path_join (PARAMS_DIR path_join) filename) ->
  scan_params path_join cache listing !! t
  = Some (path_join (PARAMS_DIR path_join) filename).
Proof.
  intros cache Hn. revert cache.
  induction listing as [|f listing IH]; intros cache Hc; [done |].
  rewrite scan_params_cons. apply IH.
  destruct (endswith ".json" f) eqn:Hf; [| done].
  destruct (decide (drop_last 5 f = t)) as [Heq | Hne].
  - rewrite Heq, lookup_insert_eq.
    rewrite (names_term_eq f t), (names_term_eq filename t); done.
  - by rewrite lookup_insert_ne.
Qed.

Lemma scan_params_found t filename listing :
  filename ∈ listing -> names_term filename t -> forall cache,
  scan_params path_join cache listing !! t
  = Some (path_join (PARAMS_DIR path_join) filename).
Proof.
  intros Hin Hn.
  induction listing as [|f listing IH]; intros cache;
    [by apply elem_of_nil in Hin |].
  rewrite scan_params_cons. apply elem_of_cons in Hin as [<- | Hin].
  - apply scan_params_keep; [done |]. destruct Hn as [-> <-].
    by rewrite lookup_insert_eq.
  - by apply IH.
Qed.

Lemma scan_params_other t listing : forall cache,
  no_config_for t listing ->
  scan_params path_join cache listing !! t = cache !! t.
Proof.
  induction listing as [|f listing IH]; intros cache Hno; [done |].
  rewrite scan_params_cons, IH.
  - destruct (endswith ".json" f) eqn:Hf; [| done].
    rewrite lookup_insert_ne; [done |]. intros Heq.
    apply (Hno f); [left | done].
  - intros f' Hf'. apply Hno. by right.
Qed.

(** The tree scan keeps what the index already holds. *)
Lemma scan_files_keep t loc root files : forall cache,
  cache !! t = Some loc ->
  scan_files path_join root cache files !! t = Some loc.
Proof.
  induction files as [|f files IH]; intros cache Hc; [done |].
  rewrite scan_files_cons. apply IH.
  destruct (endswith ".json" f); [| done].
  destruct (cache !! drop_last 5 f) eqn:Hf; [done |].
  rewrite lookup_insert_ne; [done | congruence].
Qed.

Lemma scan_files_found t root filename files :
  filename ∈ files -> names_term filename t -> forall cache,
  cache !! t = None ->
  scan_files path_join root cache files !! t
  = Some (path_join root filename).
Proof.
  intros Hin Hn.
  induction files as [|f files IH]; intros cache Hc;
    [by apply elem_of_nil in Hin |].
  rewrite scan_files_cons.
  destruct (endswith ".json" f) eqn:Hf.
  - destruct (decide (drop_last 5 f = t)) as [Heq | Hne].
    + apply scan_files_keep. rewrite Heq, Hc, lookup_insert_eq.
      rewrite (names_term_eq f t), (names_term_eq filename t); done.
    + apply elem_of_cons in Hin as [-> | Hin]; [by destruct Hn |].
      apply IH; [done |].
      destruct (cache !! drop_last 5 f); [done | by rewrite lookup_insert_ne].
  - apply elem_of_cons in Hin as [-> | Hin]; [destruct Hn; congruence |].
    by apply IH.
Qed.

Lemma scan_files_other t root files : forall cache,
  no_config_for t files ->
  scan_files path_join root cache files !! t = cache !! t.
Proof.
  induction files as [|f files IH]; intros cache Hno; [done |].
  rewrite scan_files_cons, IH.
  - destruct (endswith ".json" f) eqn:Hf; [| done].
    destruct (cache !! drop_last 5 f); [done |].
    rewrite lookup_insert_ne; [done |]. intros Heq.
    apply (Hno f); [left | done].
  - intros f' Hf'. apply Hno. by right.
Qed.

Lemma scan_atlas_keep t loc walk : forall cache,
  cache !! t = Some loc -> scan_atlas path_join cache walk !! t = Some loc.
Proof.
  induction walk as [|[[root subdirs] files] walk IH]; intros cache Hc; [done |].
  rewrite scan_atlas_cons. by apply IH, scan_files_keep.
Qed.

(** In the tree the first directory of the walk that has a file for the
    term gives the location. *)
Lemma scan_atlas_first t before root subdirs files after filename cache :
  cache !! t = None ->
  Forall (fun entry => no_config_for t entry.2) before ->
  filename ∈ files -> names_term filename t ->
  scan_atlas path_join cache (before ++ (root, subdirs, files) :: after)%list !! t
  = Some (path_join root filename).
Proof.
  intros Hc Hbefore Hin Hn. revert cache Hc.
  induction Hbefore as [|[[root' subdirs'] files'] before Hno _ IH];
    intros cache Hc; simpl app.
  - rewrite scan_atlas_cons. by apply scan_atlas_keep, scan_files_found.
  - rewrite scan_atlas_cons. apply IH. by rewrite scan_files_other.
Qed.

Lemma scan_atlas_has t walk root subdirs files filename :
  (root, subdirs, files) ∈ walk -> filename ∈ files -> names_term filename t ->
  forall cache, is_Some (scan_atlas path_join cache walk !! t).
Proof.
  intros Hin Hf Hn.
  induction walk as [|[[root' subdirs'] files'] walk IH]; intros cache;
    [by apply elem_of_nil in Hin |].
  rewrite scan_atlas_cons. apply elem_of_cons in Hin as [[= <- <- <-] | Hin].
  - destruct (cache !! t) as [loc|] eqn:Hc.
    + exists loc. by apply scan_atlas_keep, scan_files_keep.
    + eexists. by apply scan_atlas_keep, scan_files_found.
  - by apply IH.
Qed.

Lemma build_json_cache_has ds cache t :
  in_params ds t \/ in_atlas ds t ->
  is_Some (build_json_cache path_join ds cache !! t).
Proof.
  unfold build_json_cache.
  intros [(listing & f & Hl & Hin & Hn) | (walk & root & sd & files & f & Hw & Hin & Hf & Hn)].
  - rewrite Hl. destruct (atlas_walk ds) as [walk|].
    + eexists. apply scan_atlas_keep. by apply scan_params_found.
    + eexists. by apply scan_params_found.
  - rewrite Hw. by eapply scan_atlas_has.
Qed.

(** C3. A term found in either search location has exactly one entry in
    the built index; when the flat directory has a file for it, the entry
    is the flat-directory location, whatever the tree holds; and in the
    tree the first file met for a term wins. *)
Theorem build_json_cache_first_writer_wins ds cache t :
  (in_params ds t \/ in_atlas ds t ->
   exists loc, build_json_cache path_join ds cache !! t = Some loc /\
     forall loc', (t, loc') ∈ map_to_list (build_json_cache path_join ds cache) ->
                  loc' = loc)
  /\ (forall listing filename,
        params_listing ds = Some listing -> filename ∈ listing ->
        names_term filename t ->
        build_json_cache path_join ds cache !! t
        = Some (path_join (PARAMS_DIR path_join) filename))
  /\ (forall before root subdirs files after filename,
        cache !! t = None ->
        (forall listing, params_listing ds = Some listing -> no_config_for t listing) ->
        atlas_walk ds = Some (before ++ (root, subdirs, files) :: after)%list ->
        Forall (fun entry => no_config_for t entry.2) before ->
        filename ∈ files -> names_term filename t ->
        build_json_cache path_join ds cache !! t
        = Some (path_join root filename)).
Proof.
  split; [| split].
  - intros Hin. destruct (build_json_cache_has ds cache t Hin) as [loc Hloc].
    exists loc. split; [done |]. intros loc' Hl.
    apply elem_of_map_to_list in Hl. congruence.
  - intros listing f Hl Hin Hn. unfold build_json_cache. rewrite Hl.
    destruct (atlas_walk ds) as [walk|].
    + apply scan_atlas_keep. by apply scan_params_found.
    + by apply scan_params_found.
  - intros before root sd files after f Hc Hflat Hw Hbefore Hin Hn.
    unfold build_json_cache. rewrite Hw.
    apply scan_atlas_first; [| done | done | done].
    destruct (params_listing ds) as [listing|]; [| done].
    rewrite scan_params_other; [done | by apply Hflat].
Qed.

End IndexBuilder.

(** ** The batch *)

Section Batch.
Import PyStr PyStrFacts Resolver.

Variable path_join : string -> string -> string.

Lemma successes_cons cache load r df :
  successes cache load (r :: df)
  = match resolved (get_route cache load (row_atlas_term r) (row_entidad r)) with
    | Some route => route :: successes cache load df
    | None => successes cache load df
    end.
Proof. reflexivity. Qed.

Lemma process_rows_returns cache load df : forall routes column,
  (forall r, r ∈ df ->
     exists result,
       get_route cache load (row_atlas_term r) (row_entidad r) = Ret result) ->
  process_rows cache load df routes column
  = Ret ((routes ++ successes cache load df)%list,
         (column ++ map (fun r => cell (get_route cache load
                                         (row_atlas_term r) (row_entidad r))) df)%list).
Proof.
  induction df as [|r df IH]; intros routes column Hret.
  - simpl. by rewrite !List.app_nil_r.
  - destruct (Hret r) as [[route error] Hr]; [by left |].
    assert (forall r', r' ∈ df ->
              exists result,
                get_route cache load (row_atlas_term r') (row_entidad r')
                = Ret result) as Hdf by (intros; apply Hret; by right).
    cbn [process_rows map]. rewrite successes_cons, Hr, bind_ret.
    destruct route as [route|]; cbn [resolved cell]; rewrite IH by done.
    + by rewrite <- !List.app_assoc.
    + by rewrite <- !List.app_assoc.
Qed.

(** C8. A run that reads the table, resolves every row and saves the
    table, ends at its last line and leaves in the route list exactly
    the resolved paths, in row order, each followed by a line feed,
    whatever the file held before; read back line by line the file gives
    that list, as long as no path contains a line feed. *)
Theorem main_routes_file env before df :
  csv_file before = Table df -> to_csv env = Written ->
  (forall r, r ∈ df ->
     exists result,
       get_route (build_json_cache path_join (dirs env) ∅) (load env)
         (row_atlas_term r) (row_entidad r) = Ret result) ->
  let routes := successes (build_json_cache path_join (dirs env) ∅) (load env) df in
  status (main path_join env before) = Finished
  /\ routes_file (files_after (main path_join env before)) = Some (unlines routes)
  /\ (Forall (fun route => occurs "010" route = false) routes ->
      lines (unlines routes) = routes).
Proof.
  intros Hcsv Hw Hret routes. unfold main. rewrite Hcsv.
  rewrite (process_rows_returns _ _ _ [] [] Hret), Hw.
  cbn [status files_after routes_file app].
  fold routes. rewrite write_routes_unlines.
  split; [done |]. split; [done |]. apply lines_unlines.
Qed.

(** C9. When saving the table raises [PermissionError], the run leaves
    both files as they were; having read the table and resolved every
    row, it returns early after the one message that the file is
    locked, before the route list is opened. *)
Theorem main_csv_locked env before :
  to_csv env = RaisesPermissionError ->
  files_after (main path_join env before) = before
  /\ (forall df,
        csv_file before = Table df ->
        (forall r, r ∈ df ->
           exists result,
             get_route (build_json_cache path_join (dirs env) ∅) (load env)
               (row_atlas_term r) (row_entidad r) = Ret result) ->
        status (main path_join env before) = ReturnedEarly
        /\ console (main path_join env before) = [CsvLocked]).
Proof.
  intros Hw. split.
  - unfold main. destruct (csv_file before) as [msg | df]; [done |].
    destruct (process_rows _ _ _ _ _) as [[routes column] | e]; [| done].
    by rewrite Hw.
  - intros df Hcsv Hret. unfold main. rewrite Hcsv.
    rewrite (process_rows_returns _ _ _ [] [] Hret). by rewrite Hw.
Qed.

(** The route list changes only in a run that ends at the last line. *)
Lemma main_routes_file_untouched env before :
  status (main path_join env before) <> Finished ->
  routes_file (files_after (main path_join env before)) = routes_file before.
Proof.
  unfold main. destruct (csv_file before) as [msg | df]; [done |].
  destruct (process_rows _ _ _ _ _) as [[routes column] | e]; [| done].
  by destruct (to_csv env).
Qed.

End Batch.

(** ** Worked examples *)

Module Examples.
Import PyStr.

Ltac by_evaluation := vm_compute; reflexivity.

Lemma get_route_exactly_one_witness :
  exists result,
    get_route sample_cache
      (serving (PDict [("ruta_landing", PStr "/data/$ENTIDAD/raw")]))
      "ventas" "ACME" = Ret result
    /\ exactly_one result.
Proof.
  destruct (Resolver.get_route_exactly_one sample_cache
              (serving (PDict [("ruta_landing", PStr "/data/$ENTIDAD/raw")]))
              "ventas" "ACME") as [Hone Hret].
  destruct Hret as [result Hr].
  - intros file data Hc Hl. vm_compute in Hc. injection Hc as <-.
    vm_compute in Hl. injection Hl as <-.
    eexists. split; [reflexivity |].
    intros k v [-> | ->] Hv; vm_compute in Hv.
    + injection Hv as <-. by eexists.
    + discriminate.
  - exists result. split; [exact Hr | by apply Hone].
Defined.

Lemma get_route_file_not_found_witness :
  get_route sample_cache (serving PNone) "clientes" "ACME"
  = Ret (None, Some "FILE_NOT_FOUND: clientes.json").
Proof.
  apply (Resolver.get_route_file_not_found sample_cache (serving PNone)
           "clientes" "ACME").
  vm_compute. reflexivity.
Defined.

(** C2 as stated fails: a primary value of three spaces, with no
    fallback key, gives [NO_VALID_ROUTE_KEY], not
    [RUTA_INVALID_AFTER_REPLACEMENT]. *)
Lemma whitespace_primary_counterexample :
  blank "   " = true
  /\ get_route sample_cache (serving (PDict [("ruta_landing", PStr "   ")]))
       "ventas" "ACME"
     = Ret (None, Some "NO_VALID_ROUTE_KEY")
  /\ get_route sample_cache (serving (PDict [("ruta_landing", PStr "   ")]))
       "ventas" "ACME"
     <> Ret (None, Some "RUTA_INVALID_AFTER_REPLACEMENT").
Proof. vm_compute. split; [done |]. split; [done | discriminate]. Qed.

Lemma get_route_whitespace_only_witness :
  get_route sample_cache (serving (PDict [("ruta_landing", PStr "   ")]))
    "ventas" "ACME"
  = Ret (None, Some "NO_VALID_ROUTE_KEY")
  /\ get_route sample_cache (serving (PDict [("ruta_landing", PStr "$ENTIDAD")]))
       "ventas" "  "
     = Ret (None, Some "RUTA_INVALID_AFTER_REPLACEMENT").
Proof.
  split.
  - apply (proj1 (Resolver.get_route_whitespace_only sample_cache
                    (serving (PDict [("ruta_landing", PStr "   ")]))
                    "ventas" "ACME" "params\ventas.json"
                    [("ruta_landing", PStr "   ")]
                    ltac:(by_evaluation) ltac:(by_evaluation))
             "   ");
      [reflexivity | reflexivity | left; reflexivity].
  - apply (proj2 (Resolver.get_route_whitespace_only sample_cache
                    (serving (PDict [("ruta_landing", PStr "$ENTIDAD")]))
                    "ventas" "  " "params\ventas.json"
                    [("ruta_landing", PStr "$ENTIDAD")]
                    ltac:(by_evaluation) ltac:(by_evaluation))
             "$ENTIDAD");
      [left; split; [reflexivity | vm_compute; discriminate] | reflexivity].
Defined.

Lemma get_route_substitutes_placeholder_witness :
  get_route sample_cache
    (serving (PDict [("ruta_landing", PStr "/data/$ENTIDAD/raw")]))
    "ventas" "ACME"
  = Ret (Some "/data/acme/raw", None)
  /\ replace "/data/$ENTIDAD/raw" "$ENTIDAD" "acme" = join "acme" ["/data/"; "/raw"].
Proof.
  destruct (Resolver.get_route_substitutes_placeholder sample_cache
              (serving (PDict [("ruta_landing", PStr "/data/$ENTIDAD/raw")]))
              "ventas" "ACME" "params\ventas.json"
              [("ruta_landing", PStr "/data/$ENTIDAD/raw")] "/data/$ENTIDAD/raw")
    as [Hroute Hjoin].
  - by_evaluation.
  - by_evaluation.
  - left. split; [reflexivity | vm_compute; discriminate].
  - split; [exact Hroute |].
    apply (Hjoin ["/data/"; "/raw"]); [reflexivity | by repeat constructor].
Defined.

Lemma get_route_fallback_witness :
  get_route sample_cache
    (serving (PDict [("ruta_landing", PStr "  ");
                     ("directorio_de_archivo_en_hdfs", PStr " /hdfs/$ENTIDAD ")]))
    "ventas" "Beta"
  = Ret (Some "/hdfs/beta", None).
Proof.
  apply (proj2 (Resolver.get_route_fallback sample_cache
                  (serving (PDict [("ruta_landing", PStr "  ");
                                   ("directorio_de_archivo_en_hdfs",
                                    PStr " /hdfs/$ENTIDAD ")]))
                  "ventas" "Beta" "params\ventas.json"
                  [("ruta_landing", PStr "  ");
                   ("directorio_de_archivo_en_hdfs", PStr " /hdfs/$ENTIDAD ")]
                  " /hdfs/$ENTIDAD "
                  ltac:(by_evaluation) ltac:(by_evaluation)
                  ltac:(right; exists "  "; split; reflexivity)
                  ltac:(reflexivity))).
  vm_compute. discriminate.
Defined.

Lemma get_route_trims_witness :
  get_route sample_cache
    (serving (PDict [("ruta_landing", PStr "  /data/$ENTIDAD/raw ")]))
    "ventas" "ACME"
  = Ret (Some "/data/acme/raw", None).
Proof.
  apply (Resolver.get_route_trims sample_cache
           (serving (PDict [("ruta_landing", PStr "  /data/$ENTIDAD/raw ")]))
           "ventas" "ACME" "params\ventas.json"
           [("ruta_landing", PStr "  /data/$ENTIDAD/raw ")]
           "  /data/$ENTIDAD/raw ").
  - by_evaluation.
  - by_evaluation.
  - left. split; [reflexivity | vm_compute; discriminate].
Defined.

(** The sample directories: [ventas] is in both locations and gets its
    flat location, [stock] is in the tree only. *)
Lemma build_json_cache_first_writer_wins_witness :
  (exists loc, build_json_cache win_join sample_dirs ∅ !! "ventas" = Some loc)
  /\ build_json_cache win_join sample_dirs ∅ !! "ventas"
     = Some (win_join (PARAMS_DIR win_join) "ventas.json")
  /\ build_json_cache win_join sample_dirs ∅ !! "stock"
     = Some (win_join "atlas" "stock.json").
Proof.
  split; [| split].
  - destruct (proj1 (build_json_cache_first_writer_wins win_join
                       sample_dirs ∅ "ventas")) as (loc & Hloc & _);
      [| by exists loc].
    left. exists ["ventas.json"; "notes.txt"], "ventas.json".
    split; [reflexivity |]. split; [by left |]. split; by_evaluation.
  - apply (proj1 (proj2 (build_json_cache_first_writer_wins win_join
                           sample_dirs ∅ "ventas"))
             ["ventas.json"; "notes.txt"] "ventas.json").
    + reflexivity.
    + by left.
    + split; by_evaluation.
  - apply (proj2 (proj2 (build_json_cache_first_writer_wins win_join
                           sample_dirs ∅ "stock"))
             [] "atlas" ["sub"] ["ventas.json"; "stock.json"] [] "stock.json").
    + by_evaluation.
    + intros listing [= <-] f Hf [He Hd].
      repeat (apply elem_of_cons in Hf as [-> | Hf]);
        [| | by apply elem_of_nil in Hf]; vm_compute in Hd, He; discriminate.
    + reflexivity.
    + constructor.
    + right. by left.
    + split; by_evaluation.
Defined.

Lemma sample_rows_return (write : to_csv_result) r :
  r ∈ sample_rows ->
  exists result,
    get_route (build_json_cache win_join (dirs (sample_env write)) ∅)
      (load (sample_env write)) (row_atlas_term r) (row_entidad r) = Ret result.
Proof.
  intros Hr. unfold sample_rows in Hr.
  repeat (apply elem_of_cons in Hr as [-> | Hr]);
    [| | | by apply elem_of_nil in Hr];
    eexists; vm_compute; reflexivity.
Defined.

(** The sample run: rows 0 and 2 resolve, row 1 has no file. *)
Lemma main_routes_file_witness :
  status (main win_join (sample_env Written) sample_before) = Finished
  /\ routes_file (files_after (main win_join (sample_env Written) sample_before))
     = Some (unlines ["/data/acme/raw"; "/hdfs/beta/stock"])
  /\ lines (unlines ["/data/acme/raw"; "/hdfs/beta/stock"])
     = ["/data/acme/raw"; "/hdfs/beta/stock"].
Proof.
  destruct (main_routes_file win_join (sample_env Written) sample_before
              sample_rows eq_refl eq_refl (sample_rows_return Written))
    as (Hstatus & Hfile & Hlines).
  split; [exact Hstatus |]. split.
  - rewrite Hfile. by_evaluation.
  - change ["/data/acme/raw"; "/hdfs/beta/stock"]
      with (successes (build_json_cache win_join (dirs (sample_env Written)) ∅)
              (load (sample_env Written)) sample_rows).
    apply Hlines. vm_compute. by repeat constructor.
Defined.

Lemma main_csv_locked_witness :
  files_after (main win_join (sample_env RaisesPermissionError) sample_before)
  = sample_before
  /\ console (main win_join (sample_env RaisesPermissionError) sample_before)
     = [CsvLocked].
Proof.
  destruct (main_csv_locked win_join (sample_env RaisesPermissionError)
              sample_before eq_refl) as [Hfiles Hhalt].
  split; [exact Hfiles |].
  apply (Hhalt sample_rows eq_refl (sample_rows_return RaisesPermissionError)).
Defined.

End Examples.

(** ** More on the route resolver *)

Module ResolverMore.
Import PyStr PyStrFacts Resolver.





(** What lines 64 and 68 read is empty or a trimmed string. *)
Lemma route_of_key_trimmed data k r :
  route_of_key data k = Ret r -> r = "" \/ exists s, r = strip s.
Proof.
  unfold route_of_key. destruct (py_in k data) as [[|] | e]; [| | done].
  - rewrite bind_ret. destruct (py_get data k) as [v | e]; [| done].
    rewrite bind_ret. destruct v; try done. intros [= <-]. right. by eexists.
  - rewrite bind_ret. intros [= <-]. by left.
Qed.

Lemma lower_char_idempotent c : lower_char (lower_char c) = lower_char c.
Proof.
  destruct c as [[|] [|] [|] [|] [|] [|] [|] [|]]; vm_compute; reflexivity.
Qed.

Lemma lower_idempotent s : lower (lower s) = lower s.
Proof.
  induction s as [|c s IH]; simpl; [done |].
  by rewrite lower_char_idempotent, IH.
Qed.

Lemma nonempty_trimmed_not_blank r :
  r <> "" -> leading_space r = false -> blank r = false.
Proof.
  intros Hne Hl. destruct (blank r) eqn:Hb; [| done].
  rewrite (blank_leading r Hne Hb) in Hl. done.
Qed.

(** X1. An error that [get_route] returns starts with one of the four
    tags, and with only one of them. *)
Theorem get_route_error_has_one_tag cache load t ent route e :
  get_route cache load t ent = Ret (route, Some e) ->
  exists tag, tag ∈ error_tags /\ startswith tag e = true /\
    forall tag', tag' ∈ error_tags -> startswith tag' e = true -> tag' = tag.
Proof.
  intros H. destruct (get_route_error_tag _ _ _ _ _ _ H) as (tag & Hin & Hs).
  exists tag. split; [done |]. split; [done |].
  intros tag' Hin' Hs'. unfold error_tags in Hin, Hin'.
  apply startswith_spec in Hs as [rest ->].
  repeat (apply elem_of_cons in Hin as [-> | Hin]);
    [| | | | by apply elem_of_nil in Hin];
    repeat (apply elem_of_cons in Hin' as [-> | Hin']);
    try (by apply elem_of_nil in Hin'); try reflexivity;
    vm_compute in Hs'; discriminate.
Qed.

(** X2. The error code tells which step failed: [FILE_NOT_FOUND] only
    for a term the index does not hold, [JSON_READ_ERROR] only with the
    message of a failed load, [NO_VALID_ROUTE_KEY] only when both keys
    read as empty, [RUTA_INVALID_AFTER_REPLACEMENT] only when a value
    was read and its substitution is blank; and no path comes with it. *)
Theorem get_route_error_cause cache load t ent route e :
  get_route cache load t ent = Ret (route, Some e) ->
  route = None /\
  ((cache !! t = None /\ e = "FILE_NOT_FOUND: " +:+ t +:+ ".json")
   \/ (exists file msg,
         cache !! t = Some file /\ load file = LoadError msg /\
         e = "JSON_READ_ERROR: " +:+ msg)
   \/ (exists file data,
         cache !! t = Some file /\ load file = Loaded data /\
         route_of_key data PRIMARY = Ret "" /\
         route_of_key data FALLBACK = Ret "" /\
         e = "NO_VALID_ROUTE_KEY")
   \/ (exists file data r,
         cache !! t = Some file /\ load file = Loaded data /\ r <> "" /\
         (route_of_key data PRIMARY = Ret r \/
          (route_of_key data PRIMARY = Ret "" /\
           route_of_key data FALLBACK = Ret r)) /\
         blank (replace r "$ENTIDAD" (lower ent)) = true /\
         e = "RUTA_INVALID_AFTER_REPLACEMENT")).
Proof.
  unfold get_route, PRIMARY, FALLBACK.
  destruct (cache !! t) as [file|] eqn:Hc; [| intros [= <- <-]; by split; [| left]].
  destruct (load file) as [msg | data] eqn:Hl.
  { intros [= <- <-]. split; [done |]. right. left. by exists file, msg. }
  destruct (route_of_key data "ruta_landing") as [r1 | ?] eqn:H1; [| done].
  rewrite bind_ret. destruct (truthy r1) eqn:Ht1.
  - rewrite bind_ret, Ht1. cbn [negb]. cbv zeta. rewrite invalid_iff_blank.
    destruct (blank _) eqn:Hb; intros [= <- <-]. split; [done |].
    right. right. right. exists file, data, r1.
    split; [done |]. split; [done |]. split; [by apply truthy_true |].
    split; [by left |]. by split.
  - apply truthy_false in Ht1 as ->.
    destruct (route_of_key data "directorio_de_archivo_en_hdfs")
      as [r2 | ?] eqn:H2; [| done].
    rewrite bind_ret. destruct (truthy r2) eqn:Ht2; cbn [negb].
    + cbv zeta. rewrite invalid_iff_blank.
      destruct (blank _) eqn:Hb; intros [= <- <-]. split; [done |].
      right. right. right. exists file, data, r2.
      split; [done |]. split; [done |]. split; [by apply truthy_true |].
      split; [by right |]. by split.
    + apply truthy_false in Ht2 as ->. intros [= <- <-]. split; [done |].
      right. right. left. by exists file, data.
Qed.

(** X3. A resolved path comes without an error, is not blank, and is
    the substitution of a value that is not empty and neither begins nor
    ends with whitespace. *)
Theorem get_route_success_shape cache load t ent route e :
  get_route cache load t ent = Ret (Some route, e) ->
  e = None /\ blank route = false /\
  exists r, r <> "" /\ leading_space r = false /\ trailing_space r = false /\
    route = replace r "$ENTIDAD" (lower ent).
Proof.
  unfold get_route.
  destruct (cache !! t) as [file|]; [| done].
  destruct (load file) as [msg | data]; [done |].
  destruct (route_of_key data "ruta_landing") as [r1 | ?] eqn:H1; [| done].
  rewrite bind_ret.
  destruct (if truthy r1 then Ret r1 else _) as [r2 | ?] eqn:H2; [| done].
  assert (r2 = "" \/ exists s, r2 = strip s) as Hr2.
  { destruct (truthy r1); [injection H2 as <- |];
      by eapply route_of_key_trimmed. }
  rewrite bind_ret. destruct (truthy r2) eqn:Ht2; cbn [negb]; [| done].
  cbv zeta. rewrite invalid_iff_blank.
  destruct (blank _) eqn:Hb; intros [= <- <-]. split; [done |]. split; [done |].
  apply truthy_true in Ht2. destruct Hr2 as [-> | [s ->]]; [done |].
  exists (strip s). destruct (strip_trimmed s). by repeat split.
Qed.


(** X5. Of a dictionary only the two recognized keys are read: two
    configurations that agree on them resolve alike. *)
Theorem get_route_reads_two_keys cache load load' t ent file d d' :
  cache !! t = Some file ->
  load file = Loaded (PDict d) -> load' file = Loaded (PDict d') ->
  dict_lookup PRIMARY d = dict_lookup PRIMARY d' ->
  dict_lookup FALLBACK d = dict_lookup FALLBACK d' ->
  get_route cache load t ent = get_route cache load' t ent.
Proof.
  intros Hc Hl Hl' Hp Hf. unfold get_route, PRIMARY, FALLBACK in *.
  rewrite Hc, Hl, Hl', !route_of_key_dict. by rewrite Hp, Hf.
Qed.

(** X6. A path value under the primary key wins: what the fallback key
    holds, a string or not, is not looked at. *)
Theorem get_route_primary_wins cache load load' t ent file d d' v :
  cache !! t = Some file ->
  load file = Loaded (PDict d) -> load' file = Loaded (PDict d') ->
  holds d PRIMARY v -> dict_lookup PRIMARY d' = Some (PStr v) ->
  get_route cache load t ent = get_route cache load' t ent.
Proof.
  intros Hc Hl Hl' Hp Hp'.
  rewrite (get_route_selected _ _ _ _ _ _ v Hc Hl) by (by left).
  rewrite (get_route_selected _ _ _ _ _ _ v Hc Hl'); [done |].
  left. split; [done | by destruct Hp].
Qed.

(** X7. A selected value in which the token does not occur resolves to
    its trimmed self, for every entity name. *)
Theorem get_route_without_placeholder cache load t ent file d v :
  cache !! t = Some file -> load file = Loaded (PDict d) -> selected d v ->
  contains "$ENTIDAD" (strip v) = false ->
  get_route cache load t ent = Ret (Some (strip v), None).
Proof.
  intros Hc Hl Hs Hn. rewrite (get_route_selected _ _ _ _ _ _ v Hc Hl Hs).
  cbv zeta. rewrite replace_absent by done.
  rewrite nonempty_trimmed_not_blank; [done | | apply strip_trimmed].
  by destruct Hs as [[_ ?] | [_ [_ ?]]].
Qed.

(** X8. The entity name counts up to letter case only: an entity name
    and its lowercase form resolve alike. *)
Theorem get_route_entity_case cache load t ent :
  get_route cache load t (lower ent) = get_route cache load t ent.
Proof. unfold get_route. by rewrite lower_idempotent. Qed.

(** X9. A document that is not a dictionary: [null], a boolean or a
    number raises [TypeError] at the test of line 64; a list that has
    neither key name among its elements, like a string in which neither
    occurs, gives [NO_VALID_ROUTE_KEY]; a list that has the primary key
    name as an element raises [AttributeError]. *)
Theorem get_route_not_a_dictionary cache load t ent file data :
  cache !! t = Some file -> load file = Loaded data ->
  match data with
  | PDict _ => True
  | PNone | PBool _ | PInt _ | PFloat _ =>
      get_route cache load t ent = Raise TypeError
  | PList l =>
      (existsb (is_str PRIMARY) l = false ->
       existsb (is_str FALLBACK) l = false ->
       get_route cache load t ent = Ret (None, Some "NO_VALID_ROUTE_KEY"))
      /\ (existsb (is_str PRIMARY) l = true ->
          get_route cache load t ent = Raise AttributeError)
  | PStr s =>
      (contains PRIMARY s = false -> contains FALLBACK s = false ->
       get_route cache load t ent = Ret (None, Some "NO_VALID_ROUTE_KEY"))
      /\ (contains PRIMARY s = true ->
          get_route cache load t ent = Raise AttributeError)
  end.
Proof.
  intros Hc Hl. unfold get_route, PRIMARY, FALLBACK. rewrite Hc, Hl.
  destruct data as [| b | z | lit | s | l | d]; try done.
  - unfold route_of_key, py_in. split.
    + intros -> ->. done.
    + intros ->. done.
  - unfold route_of_key, py_in. split.
    + intros -> ->. done.
    + intros ->. done.
Qed.

End ResolverMore.

(** ** More on the index builder *)

Section IndexMore.
Import PyStr PyStrFacts.

Variable path_join : string -> string -> string.

Lemma names_term_dec filename t : names_term filename t \/ ~ names_term filename t.
Proof.
  unfold names_term.
  destruct (endswith ".json" filename); [| right; by intros [? _]].
  destruct (decide (drop_last 5 filename = t)); [by left | right; by intros [_ ?]].
Qed.

Lemma config_or_none t files :
  (exists filename, filename ∈ files /\ names_term filename t)
  \/ no_config_for t files.
Proof.
  induction files as [|f files [(f' & Hin & Hn) | Hno]].
  - right. by intros f Hf%elem_of_nil.
  - left. exists f'. split; [by right | done].
  - destruct (names_term_dec f t) as [Hn | Hn].
    + left. exists f. split; [by left | done].
    + right. intros f' [-> | Hin]%elem_of_cons; [done | by apply Hno].
Qed.

(** Where an entry of the flat scan comes from. *)
Lemma scan_params_sound t loc listing : forall cache,
  scan_params path_join cache listing !! t = Some loc ->
  cache !! t = Some loc \/
  exists filename, filename ∈ listing /\ names_term filename t /\
    loc = path_join (PARAMS_DIR path_join) filename.
Proof.
  induction listing as [|f listing IH]; intros cache H; [by left |].
  rewrite scan_params_cons in H.
  destruct (IH _ H) as [Hc | (f' & Hin & Hn & ->)].
  - destruct (endswith ".json" f) eqn:Hf; [| by left].
    destruct (decide (drop_last 5 f = t)) as [Heq | Hne].
    + rewrite Heq, lookup_insert_eq in Hc. injection Hc as <-.
      right. exists f. split; [by left | by split].
    + rewrite lookup_insert_ne in Hc by done. by left.
  - right. exists f'. split; [by right | by split].
Qed.

Lemma scan_files_sound t loc root files : forall cache,
  scan_files path_join root cache files !! t = Some loc ->
  cache !! t = Some loc \/
  exists filename, filename ∈ files /\ names_term filename t /\
    loc = path_join root filename.
Proof.
  induction files as [|f files IH]; intros cache H; [by left |].
  rewrite scan_files_cons in H.
  destruct (IH _ H) as [Hc | (f' & Hin & Hn & ->)].
  - destruct (endswith ".json" f) eqn:Hf; [| by left].
    destruct (cache !! drop_last 5 f) eqn:Hl; [by left |].
    destruct (decide (drop_last 5 f = t)) as [Heq | Hne].
    + rewrite Heq, lookup_insert_eq in Hc. injection Hc as <-.
      right. exists f. split; [by left | by split].
    + rewrite lookup_insert_ne in Hc by done. by left.
  - right. exists f'. split; [by right | by split].
Qed.

Lemma scan_atlas_sound t loc walk : forall cache,
  scan_atlas path_join cache walk !! t = Some loc ->
  cache !! t = Some loc \/
  exists root subdirs files filename,
    (root, subdirs, files) ∈ walk /\ filename ∈ files /\
    names_term filename t /\ loc = path_join root filename.
Proof.
  induction walk as [|[[root sd] files] walk IH]; intros cache H; [by left |].
  rewrite scan_atlas_cons in H.
  destruct (IH _ H) as [Hc | (root' & sd' & files' & f & Hin & Hf & Hn & ->)].
  - destruct (scan_files_sound _ _ _ _ _ Hc) as [Hc' | (f & Hf & Hn & ->)];
      [by left |].
    right. exists root, sd, files, f. split; [by left | by split].
  - right. exists root', sd', files', f. split; [by right | by split].
Qed.

Lemma scan_atlas_other t walk : forall cache,
  Forall (fun entry => no_config_for t entry.2) walk ->
  scan_atlas path_join cache walk !! t = cache !! t.
Proof.
  induction walk as [|[[root sd] files] walk IH]; intros cache Hno; [done |].
  inversion Hno as [|? ? Hfiles Hwalk]; subst.
  rewrite scan_atlas_cons, IH by done. by apply scan_files_other.
Qed.

(** The tree scan looks at the index term by term. *)
Lemma scan_files_agree t root files : forall c1 c2,
  c1 !! t = c2 !! t ->
  scan_files path_join root c1 files !! t
  = scan_files path_join root c2 files !! t.
Proof.
  induction files as [|f files IH]; intros c1 c2 H; [done |].
  rewrite !scan_files_cons. apply IH.
  destruct (endswith ".json" f); [| done].
  destruct (decide (drop_last 5 f = t)) as [Heq | Hne].
  - rewrite Heq, <- H. destruct (c1 !! t) eqn:H1.
    + by rewrite H1, <- H.
    + by rewrite !lookup_insert_eq.
  - destruct (c1 !! drop_last 5 f), (c2 !! drop_last 5 f);
      by rewrite ?lookup_insert_ne.
Qed.

Lemma scan_atlas_agree t walk : forall c1 c2,
  c1 !! t = c2 !! t ->
  scan_atlas path_join c1 walk !! t = scan_atlas path_join c2 walk !! t.
Proof.
  induction walk as [|[[root sd] files] walk IH]; intros c1 c2 H; [done |].
  rewrite !scan_atlas_cons. by apply IH, scan_files_agree.
Qed.

Lemma scan_atlas_twice t walk cache :
  scan_atlas path_join (scan_atlas path_join cache walk) walk !! t
  = scan_atlas path_join cache walk !! t.
Proof.
  destruct (scan_atlas path_join cache walk !! t) as [loc|] eqn:H.
  - by apply scan_atlas_keep.
  - rewrite <- H. apply scan_atlas_agree. rewrite H.
    destruct (cache !! t) as [loc|] eqn:Hc; [| done].
    by rewrite (scan_atlas_keep _ _ _ _ _ Hc) in H.
Qed.

Lemma build_json_cache_origin ds cache t loc :
  build_json_cache path_join ds cache !! t = Some loc ->
  cache !! t = Some loc \/ from_params path_join ds t loc
  \/ from_atlas path_join ds t loc.
Proof.
  unfold build_json_cache, from_params, from_atlas. intros H.
  assert (match params_listing ds with
          | Some listing => scan_params path_join cache listing
          | None => cache
          end !! t = Some loc
          \/ from_atlas path_join ds t loc) as [Hflat | Htree].
  { destruct (atlas_walk ds) as [walk|] eqn:Hw; [| by left].
    destruct (scan_atlas_sound _ _ _ _ H)
      as [Hc | (root & sd & files & f & Hin & Hf & Hn & ->)]; [by left |].
    right. by exists walk, root, sd, files, f. }
  - destruct (params_listing ds) as [listing|] eqn:Hl; [| by left].
    destruct (scan_params_sound _ _ _ _ Hflat) as [Hc | (f & Hin & Hn & ->)];
      [by left |].
    right. left. by exists listing, f.
  - by right; right.
Qed.

(** X10. Every entry of the built index is the entry the dictionary had
    before, or the location of a file, named after the term, of the flat
    directory or of the tree. *)
Theorem build_json_cache_sound ds cache t loc :
  build_json_cache path_join ds cache !! t = Some loc ->
  cache !! t = Some loc \/ from_params path_join ds t loc
  \/ from_atlas path_join ds t loc.
Proof. apply build_json_cache_origin. Qed.

(** X11. Built from an empty dictionary, the index holds exactly the
    terms that have a file in the flat directory or in the tree. *)
Theorem build_json_cache_domain ds t :
  is_Some (build_json_cache path_join ds ∅ !! t)
  <-> in_params ds t \/ in_atlas ds t.
Proof.
  split; [| apply build_json_cache_has].
  intros [loc Hloc].
  destruct (build_json_cache_origin _ _ _ _ Hloc)
    as [He | [(listing & f & Hl & Hin & Hn & _)
             | (walk & root & sd & files & f & Hw & Hin & Hf & Hn & _)]].
  - by rewrite lookup_empty in He.
  - left. by exists listing, f.
  - right. by exists walk, root, sd, files, f.
Qed.

Lemma build_json_cache_skips ds cache t :
  (forall listing, params_listing ds = Some listing -> no_config_for t listing) ->
  (forall walk, atlas_walk ds = Some walk ->
     Forall (fun entry => no_config_for t entry.2) walk) ->
  build_json_cache path_join ds cache !! t = cache !! t.
Proof.
  intros Hflat Htree. unfold build_json_cache.
  destruct (atlas_walk ds) as [walk|].
  - rewrite scan_atlas_other by (by apply Htree).
    destruct (params_listing ds) as [listing|]; [| done].
    by apply scan_params_other, Hflat.
  - destruct (params_listing ds) as [listing|]; [| done].
    by apply scan_params_other, Hflat.
Qed.

(** X12. A term that has no file in either location keeps the entry the
    dictionary had for it: files that do not end in [.json], and files
    of other terms, leave it alone. *)
Theorem build_json_cache_other ds cache t :
  (forall listing, params_listing ds = Some listing -> no_config_for t listing) ->
  (forall walk, atlas_walk ds = Some walk ->
     Forall (fun entry => no_config_for t entry.2) walk) ->
  build_json_cache path_join ds cache !! t = cache !! t.
Proof. apply build_json_cache_skips. Qed.

(** X13. Building the index again over the same directories changes
    nothing. *)
Theorem build_json_cache_idempotent ds cache :
  build_json_cache path_join ds (build_json_cache path_join ds cache)
  = build_json_cache path_join ds cache.
Proof.
  apply map_eq. intros t. unfold build_json_cache.
  destruct (params_listing ds) as [listing|], (atlas_walk ds) as [walk|].
  - destruct (config_or_none t listing) as [(f & Hin & Hn) | Hno].
    + rewrite !(scan_atlas_keep path_join t (path_join (PARAMS_DIR path_join) f));
        [done | by apply scan_params_found | by apply scan_params_found].
    + rewrite (scan_atlas_agree t walk
                 (scan_params path_join
                    (scan_atlas path_join (scan_params path_join cache listing) walk)
                    listing)
                 (scan_atlas path_join (scan_params path_join cache listing) walk))
        by (by apply scan_params_other).
      apply scan_atlas_twice.
  - destruct (config_or_none t listing) as [(f & Hin & Hn) | Hno].
    + by rewrite !(scan_params_found path_join t f listing Hin Hn).
    + by rewrite !scan_params_other.
  - apply scan_atlas_twice.
  - done.
Qed.

End IndexMore.

(** ** More on the batch *)

Section BatchMore.
Import PyStr PyStrFacts Resolver.

Variable path_join : string -> string -> string.

(** What [get_route] returns has one side filled in. *)
Lemma get_route_ret_cases cache load t ent result :
  get_route cache load t ent = Ret result ->
  (exists route, result = (Some route, None))
  \/ (exists e, result = (None, Some e)).
Proof.
  unfold get_route.
  destruct (cache !! t) as [file|]; [| intros [= <-]; right; by eexists].
  destruct (load file) as [msg | data]; [intros [= <-]; right; by eexists |].
  destruct (route_of_key data "ruta_landing") as [r1 | ?]; [| done].
  rewrite bind_ret.
  destruct (if truthy r1 then Ret r1 else _) as [r2 | ?]; [| done].
  rewrite bind_ret. destruct (negb (truthy r2));
    [intros [= <-]; right; by eexists |].
  cbv zeta. destruct (_ || _); intros [= <-];
    [right; by eexists | left; by eexists].
Qed.

Lemma cell_is_some cache load t ent result :
  get_route cache load t ent = Ret result -> is_Some (cell (Ret result)).
Proof.
  intros [[route ->] | [e ->]]%get_route_ret_cases; by eexists.
Qed.

(** A loop that comes to its end has resolved every row. *)
Lemma process_rows_ret_inv cache load df : forall routes column routes' column',
  process_rows cache load df routes column = Ret (routes', column') ->
  forall r, r ∈ df ->
    exists result,
      get_route cache load (row_atlas_term r) (row_entidad r) = Ret result.
Proof.
  induction df as [|r0 df IH]; intros routes column routes' column' H r Hr;
    [by apply elem_of_nil in Hr |].
  cbn [process_rows] in H.
  destruct (get_route cache load (row_atlas_term r0) (row_entidad r0))
    as [[route error] | e] eqn:H0; [| done].
  rewrite bind_ret in H.
  apply elem_of_cons in Hr as [-> | Hr]; [by eexists |].
  destruct route; by eapply IH.
Qed.

(** The loop stops at the first row on which [get_route] raises. *)
Lemma process_rows_first_raise cache load df1 r df2 e : forall routes column,
  (forall r', r' ∈ df1 ->
     exists result,
       get_route cache load (row_atlas_term r') (row_entidad r') = Ret result) ->
  get_route cache load (row_atlas_term r) (row_entidad r) = Raise e ->
  process_rows cache load (df1 ++ r :: df2) routes column = Raise e.
Proof.
  induction df1 as [|r0 df1 IH]; intros routes column Hret Hr.
  - cbn [app process_rows]. by rewrite Hr.
  - destruct (Hret r0) as [[route error] H0]; [by left |].
    cbn [app process_rows]. rewrite H0, bind_ret.
    destruct route; apply IH; try done; intros; apply Hret; by right.
Qed.

Lemma set_ruta_landing_cells cache load df :
  set_ruta_landing df
    (map (fun r => cell (get_route cache load (row_atlas_term r) (row_entidad r)))
       df)
  = map (resolve_row cache load) df.
Proof.
  unfold set_ruta_landing. induction df as [|r df IH]; [done |].
  cbn [map zip_with]. by rewrite IH.
Qed.

Lemma successes_resolve_row cache load df :
  successes cache load (map (resolve_row cache load) df) = successes cache load df.
Proof.
  induction df as [|r df IH]; [done |].
  cbn [map]. rewrite !successes_cons, IH. done.
Qed.

Lemma resolve_row_twice cache load df :
  map (resolve_row cache load) (map (resolve_row cache load) df)
  = map (resolve_row cache load) df.
Proof. induction df as [|r df IH]; [done |]. cbn [map]. by rewrite IH. Qed.

Lemma successes_length cache load df :
  List.length (successes cache load df) <= List.length df.
Proof.
  induction df as [|r df IH]; [done |]. rewrite successes_cons.
  destruct (resolved _); simpl; lia.
Qed.

(** A run that resolves every row and saves the table, in full. *)
Lemma main_finished env before df :
  csv_file before = Table df -> to_csv env = Written ->
  (forall r, r ∈ df ->
     exists result,
       get_route (build_json_cache path_join (dirs env) ∅) (load env)
         (row_atlas_term r) (row_entidad r) = Ret result) ->
  main path_join env before
  = {| files_after :=
         {| csv_file :=
              Table (map (resolve_row (build_json_cache path_join (dirs env) ∅)
                            (load env)) df);
            routes_file :=
              Some (unlines (successes (build_json_cache path_join (dirs env) ∅)
                               (load env) df)) |};
       console := []; status := Finished |}.
Proof.
  intros Hcsv Hw Hret. unfold main. rewrite Hcsv.
  rewrite (process_rows_returns _ _ _ [] [] Hret), Hw.
  cbn [app]. by rewrite write_routes_unlines, set_ruta_landing_cells.
Qed.

(** A run ends at its last line only if it did all that. *)
Lemma main_finished_inv env before df :
  csv_file before = Table df -> status (main path_join env before) = Finished ->
  to_csv env = Written /\
  forall r, r ∈ df ->
    exists result,
      get_route (build_json_cache path_join (dirs env) ∅) (load env)
        (row_atlas_term r) (row_entidad r) = Ret result.
Proof.
  intros Hcsv. unfold main. rewrite Hcsv.
  destruct (process_rows _ _ _ _ _) as [[routes column] | e] eqn:Hp; [| done].
  destruct (to_csv env); [| done | done]. intros _. split; [done |].
  by eapply process_rows_ret_inv.
Qed.

(** X14. The first row on which [get_route] raises ends the run with
    that exception: both files stay as they were, nothing of the rows
    resolved before it is saved. *)
Theorem main_stops_at_first_raise env before df1 r df2 e :
  csv_file before = Table (df1 ++ r :: df2) ->
  (forall r', r' ∈ df1 ->
     exists result,
       get_route (build_json_cache path_join (dirs env) ∅) (load env)
         (row_atlas_term r') (row_entidad r') = Ret result) ->
  get_route (build_json_cache path_join (dirs env) ∅) (load env)
    (row_atlas_term r) (row_entidad r) = Raise e ->
  status (main path_join env before) = Uncaught e
  /\ files_after (main path_join env before) = before.
Proof.
  intros Hcsv Hret Hr. unfold main. rewrite Hcsv.
  by rewrite (process_rows_first_raise _ _ _ _ _ _ [] [] Hret Hr).
Qed.

(** X15. The table saved by a run that ends at its last line is the
    table read, row by row and in the same order, with only the cell of
    [ruta_landing] replaced; and every such cell is filled, with the
    resolved path or with the error. *)
Theorem main_saved_table env before df :
  csv_file before = Table df -> status (main path_join env before) = Finished ->
  csv_file (files_after (main path_join env before))
  = Table (map (resolve_row (build_json_cache path_join (dirs env) ∅) (load env)) df)
  /\ Forall (fun r => is_Some (row_ruta_landing r))
       (map (resolve_row (build_json_cache path_join (dirs env) ∅) (load env)) df).
Proof.
  intros Hcsv Hfin.
  destruct (main_finished_inv _ _ _ Hcsv Hfin) as [Hw Hret].
  rewrite (main_finished _ _ _ Hcsv Hw Hret). split; [done |].
  apply Forall_forall. intros r' Hr'. apply list_elem_of_fmap in Hr' as (r & -> & Hr).
  destruct (Hret r Hr) as [result Hres]. cbn [resolve_row row_ruta_landing].
  rewrite Hres. by eapply cell_is_some.
Qed.

(** X16. Running the script again on the files it has just written, in
    the same surroundings, writes the same files again. *)
Theorem main_twice env before df :
  csv_file before = Table df -> status (main path_join env before) = Finished ->
  main path_join env (files_after (main path_join env before))
  = main path_join env before.
Proof.
  intros Hcsv Hfin.
  destruct (main_finished_inv _ _ _ Hcsv Hfin) as [Hw Hret].
  rewrite (main_finished _ _ _ Hcsv Hw Hret).
  rewrite (main_finished env _
             (map (resolve_row (build_json_cache path_join (dirs env) ∅)
                     (load env)) df)); [| done | done |].
  - by rewrite successes_resolve_row, resolve_row_twice.
  - intros r' Hr'. apply list_elem_of_fmap in Hr' as (r & -> & Hr).
    exact (Hret r Hr).
Qed.

(** X17. Only a run that ends at its last line touches the route list;
    and a run that returns early leaves both files as they were and
    prints one message. *)
Theorem main_halts_clean env before :
  (status (main path_join env before) <> Finished ->
   routes_file (files_after (main path_join env before)) = routes_file before)
  /\ (status (main path_join env before) = ReturnedEarly ->
      files_after (main path_join env before) = before
      /\ exists message, console (main path_join env before) = [message]).
Proof.
  unfold main. destruct (csv_file before) as [msg | df].
  - split; [done |]. intros _. split; [done | by eexists].
  - destruct (process_rows _ _ _ _ _) as [[routes column] | e]; [| done].
    destruct (to_csv env); split; try done.
    intros _. split; [done | by eexists].
Qed.

(** X18. In the summary of a finished run the rows are the resolved
    ones plus the failed ones: [Successful routes] counts the rows that
    resolved, [Failed routes] the others. *)
Theorem main_summary_totals env before df s :
  csv_file before = Table df -> main_summary path_join env before = Some s ->
  total_rows s = List.length df
  /\ successful_routes s
     = List.length (successes (build_json_cache path_join (dirs env) ∅) (load env) df)
  /\ total_rows s = successful_routes s + failed_routes s.
Proof.
  intros Hcsv. unfold main_summary. rewrite Hcsv.
  destruct (process_rows _ _ _ _ _) as [[routes column] | e] eqn:Hp; [| done].
  destruct (to_csv env); [| done | done]. intros [= <-].
  pose proof (process_rows_ret_inv _ _ _ _ _ _ _ Hp) as Hret.
  rewrite (process_rows_returns _ _ _ [] [] Hret) in Hp.
  injection Hp as <- <-. cbn [summarize total_rows successful_routes failed_routes app].
  pose proof (successes_length (build_json_cache path_join (dirs env) ∅)
                (load env) df).
  split; [done |]. split; [done | lia].
Qed.

End BatchMore.

(** ** The closing summary *)

Section Summary.
Import PyStr PyStrFacts Resolver.

Variable path_join : string -> string -> string.

(** The text before the first colon of a counted cell is counted too. *)
Lemma counted_split_head error :
  counted error = true -> counted (split_head error) = true.
Proof.
  unfold counted.
  intros [[H | H]%orb_prop | H]%orb_prop;
    apply startswith_spec in H as [rest ->].
  - change (split_head ("RUTA_" +:+ rest)) with ("RUTA_" +:+ split_head rest).
    by rewrite startswith_app.
  - change (split_head ("FILE_" +:+ rest)) with ("FILE_" +:+ split_head rest).
    rewrite (startswith_app "FILE_"). by rewrite orb_true_r.
  - change (split_head ("JSON_" +:+ rest)) with ("JSON_" +:+ split_head rest).
    rewrite (startswith_app "JSON_"). by rewrite orb_true_r.
Qed.

Lemma count_error_keys m error :
  (forall k n, m !! k = Some n -> counted k = true /\ 0 < n) ->
  forall k n, count_error m error !! k = Some n -> counted k = true /\ 0 < n.
Proof.
  intros Hm k n. unfold count_error.
  destruct error as [e|]; [| apply Hm].
  destruct (counted e) eqn:He; [| apply Hm]. cbv zeta.
  destruct (decide (split_head e = k)) as [<- | Hne].
  - rewrite lookup_insert_eq. intros [= <-].
    split; [by apply counted_split_head | lia].
  - rewrite lookup_insert_ne by done. apply Hm.
Qed.

Lemma foldl_count_error_keys column : forall m,
  (forall k n, m !! k = Some n -> counted k = true /\ 0 < n) ->
  forall k n, foldl count_error m column !! k = Some n ->
    counted k = true /\ 0 < n.
Proof.
  induction column as [|c column IH]; intros m Hm; [done |].
  cbn [foldl]. by apply IH, count_error_keys.
Qed.

(** What the loop of lines 147-150 adds under one key. *)
Lemma foldl_count_error_lookup k column : forall m,
  default 0 (foldl count_error m column !! k)
  = default 0 (m !! k) + List.length (List.filter (counts_as k) column).
Proof.
  induction column as [|c column IH]; intros m; [simpl; lia |].
  cbn [foldl List.filter]. rewrite IH. unfold count_error, counts_as.
  destruct c as [e|]; [| done].
  destruct (counted e); [| done]. cbv zeta. cbn [andb].
  destruct (String.eqb_spec (split_head e) k) as [-> | Hne].
  - rewrite lookup_insert_eq. simpl. lia.
  - by rewrite lookup_insert_ne.
Qed.

(** The cell of a row counts as [FILE_NOT_FOUND] exactly when the index
    does not hold the term of the row. *)
Lemma counts_as_file_not_found cache load t ent result :
  get_route cache load t ent = Ret result ->
  (forall route, result.1 = Some route -> split_head route <> "FILE_NOT_FOUND") ->
  counts_as "FILE_NOT_FOUND" (cell (Ret result))
  = bool_decide (cache !! t = None).
Proof.
  unfold get_route.
  destruct (cache !! t) as [file|].
  - rewrite bool_decide_eq_false_2 by done.
    destruct (load file) as [msg | data]; [by intros [= <-] |].
    destruct (route_of_key data "ruta_landing") as [r1 | ?]; [| done].
    rewrite bind_ret.
    destruct (if truthy r1 then Ret r1 else _) as [r2 | ?]; [| done].
    rewrite bind_ret. destruct (negb (truthy r2)); [by intros [= <-] |].
    cbv zeta. destruct (_ || _); intros [= <-]; [done |].
    intros Hroute. cbn [cell counts_as].
    rewrite (proj2 (String.eqb_neq _ _) (Hroute _ eq_refl)).
    by rewrite andb_false_r.
  - rewrite bool_decide_eq_true_2 by done. by intros [= <-].
Qed.

Lemma file_not_found_cells cache load df :
  (forall r, r ∈ df ->
     exists result,
       get_route cache load (row_atlas_term r) (row_entidad r) = Ret result) ->
  (forall route, route ∈ successes cache load df ->
     split_head route <> "FILE_NOT_FOUND") ->
  List.length
    (List.filter (counts_as "FILE_NOT_FOUND")
       (map (fun r => cell (get_route cache load (row_atlas_term r) (row_entidad r)))
          df))
  = List.length (not_indexed cache df).
Proof.
  unfold not_indexed. induction df as [|r df IH]; intros Hret Hsucc; [done |].
  destruct (Hret r) as [result Hr]; [by left |].
  assert (List.length
            (List.filter (counts_as "FILE_NOT_FOUND")
               (map (fun r => cell (get_route cache load (row_atlas_term r)
                                      (row_entidad r))) df))
          = List.length (filter (fun r => cache !! row_atlas_term r = None) df))
    as IH'.
  { apply IH; [intros; apply Hret; by right |].
    intros route Hin. apply Hsucc. rewrite successes_cons.
    destruct (resolved _); [by right | done]. }
  cbn [map List.filter]. rewrite Hr.
  rewrite (counts_as_file_not_found _ _ _ _ _ Hr).
  - destruct (decide (cache !! row_atlas_term r = None)) as [Hn | Hn].
    + rewrite bool_decide_eq_true_2, filter_cons_True by done.
      simpl. by rewrite IH'.
    + rewrite bool_decide_eq_false_2, filter_cons_False by done. exact IH'.
  - intros route Hroute. apply Hsucc. rewrite successes_cons, Hr.
    destruct result as [[route'|] error]; [| done].
    injection Hroute as ->. by left.
Qed.

(** X19. Every key of the error breakdown starts with [RUTA_], [FILE_]
    or [JSON_] and has a count above zero; so the rows that failed with
    [NO_VALID_ROUTE_KEY] never show in the breakdown. *)
Theorem count_errors_keys column :
  (forall k n, count_errors column !! k = Some n -> counted k = true /\ 0 < n)
  /\ count_errors column !! "NO_VALID_ROUTE_KEY" = None.
Proof.
  assert (forall k n, count_errors column !! k = Some n ->
                      counted k = true /\ 0 < n) as Hkeys.
  { apply foldl_count_error_keys. intros k n. by rewrite lookup_empty. }
  split; [done |].
  destruct (count_errors column !! "NO_VALID_ROUTE_KEY") as [n|] eqn:H; [| done].
  by destruct (Hkeys _ _ H) as [Hc _].
Qed.

(** X20. In the summary of a finished run the count kept under
    [FILE_NOT_FOUND] (none standing for zero) is the number of rows whose
    term the index does not hold, whatever colons the terms contain, as
    long as no resolved path reads [FILE_NOT_FOUND] up to its first
    colon. *)
Theorem main_summary_file_not_found env before df s :
  csv_file before = Table df -> main_summary path_join env before = Some s ->
  (forall route,
     route ∈ successes (build_json_cache path_join (dirs env) ∅) (load env) df ->
     split_head route <> "FILE_NOT_FOUND") ->
  default 0 (error_counts s !! "FILE_NOT_FOUND")
  = List.length (not_indexed (build_json_cache path_join (dirs env) ∅) df).
Proof.
  intros Hcsv. unfold main_summary. rewrite Hcsv.
  destruct (process_rows _ _ _ _ _) as [[routes column] | e] eqn:Hp; [| done].
  destruct (to_csv env); [| done | done]. intros [= <-] Hsucc.
  pose proof (process_rows_ret_inv _ _ _ _ _ _ _ Hp) as Hret.
  rewrite (process_rows_returns _ _ _ [] [] Hret) in Hp. injection Hp as <- <-.
  cbn [summarize error_counts app]. unfold count_errors.
  rewrite foldl_count_error_lookup, lookup_empty. cbn [default].
  by rewrite file_not_found_cells.
Qed.

End Summary.

(** ** From the directories to the route *)

Section EndToEnd.
Import PyStr PyStrFacts Resolver.

Variable path_join : string -> string -> string.

Lemma build_json_cache_flat ds cache t listing filename :
  params_listing ds = Some listing -> filename ∈ listing ->
  names_term filename t ->
  build_json_cache path_join ds cache !! t
  = Some (path_join (PARAMS_DIR path_join) filename).
Proof.
  intros Hl Hin Hn. unfold build_json_cache. rewrite Hl.
  destruct (atlas_walk ds) as [walk|].
  - apply scan_atlas_keep. by apply scan_params_found.
  - by apply scan_params_found.
Qed.

(** X21. A term with a file in the flat directory is resolved from that
    file, whatever files the tree has for it: the route is the selected
    value of the flat file, trimmed and substituted. *)
Theorem get_route_from_flat_file ds cache load t ent listing filename d v :
  params_listing ds = Some listing -> filename ∈ listing ->
  names_term filename t ->
  load (path_join (PARAMS_DIR path_join) filename) = Loaded (PDict d) ->
  selected d v ->
  get_route (build_json_cache path_join ds cache) load t ent
  = (let route := replace (strip v) "$ENTIDAD" (lower ent) in
     if blank route then Ret (None, Some "RUTA_INVALID_AFTER_REPLACEMENT")
     else Ret (Some route, None)).
Proof.
  intros Hl Hin Hn Hload Hs.
  apply (get_route_selected _ _ _ _
           (path_join (PARAMS_DIR path_join) filename) d); [| done | done].
  by eapply build_json_cache_flat.
Qed.

(** X22. With the index built from an empty dictionary, a term that has
    no file in either location resolves to [FILE_NOT_FOUND], whatever
    the files of other terms hold. *)
Theorem get_route_without_file ds load t ent :
  (forall listing, params_listing ds = Some listing -> no_config_for t listing) ->
  (forall walk, atlas_walk ds = Some walk ->
     Forall (fun entry => no_config_for t entry.2) walk) ->
  get_route (build_json_cache path_join ds ∅) load t ent
  = Ret (None, Some ("FILE_NOT_FOUND: " +:+ t +:+ ".json")).
Proof.
  intros Hflat Htree. unfold get_route.
  by rewrite (build_json_cache_skips path_join ds ∅ t Hflat Htree), lookup_empty.
Qed.

End EndToEnd.

(** ** More worked examples *)

Module MoreExamples.
Import PyStr.

Ltac by_computing := vm_compute; reflexivity.

Lemma sample_indexed : sample_cache !! "ventas" = Some "params\ventas.json".
Proof. by_computing. Defined.

Lemma get_route_error_has_one_tag_witness :
  exists tag, tag ∈ error_tags
    /\ startswith tag "FILE_NOT_FOUND: clientes.json" = true.
Proof.
  destruct (ResolverMore.get_route_error_has_one_tag sample_cache
              (serving PNone) "clientes" "ACME" None
              "FILE_NOT_FOUND: clientes.json" ltac:(by_computing))
    as (tag & Hin & Hs & _).
  by exists tag.
Defined.

Lemma get_route_error_cause_witness :
  get_route sample_cache (fun _ => LoadError "Expecting value") "ventas" "ACME"
  = Ret (None, Some "JSON_READ_ERROR: Expecting value")
  /\ exists file, sample_cache !! "ventas" = Some file.
Proof.
  assert (get_route sample_cache (fun _ => LoadError "Expecting value")
            "ventas" "ACME"
          = Ret (None, Some "JSON_READ_ERROR: Expecting value")) as H
    by by_computing.
  split; [exact H |].
  destruct (ResolverMore.get_route_error_cause _ _ _ _ _ _ H)
    as [_ [[_ He] | [(file & _ & Hc & _)
                    | [(file & _ & Hc & _) | (file & _ & _ & Hc & _)]]]].
  - discriminate He.
  - by exists file.
  - by exists file.
  - by exists file.
Defined.

Lemma get_route_success_shape_witness :
  get_route sample_cache
    (serving (PDict [("ruta_landing", PStr "/data/$ENTIDAD/raw")]))
    "ventas" "ACME"
  = Ret (Some "/data/acme/raw", None)
  /\ blank "/data/acme/raw" = false.
Proof.
  assert (get_route sample_cache
            (serving (PDict [("ruta_landing", PStr "/data/$ENTIDAD/raw")]))
            "ventas" "ACME"
          = Ret (Some "/data/acme/raw", None)) as H by by_computing.
  split; [exact H |].
  exact (proj1 (proj2 (ResolverMore.get_route_success_shape _ _ _ _ _ _ H))).
Defined.


Lemma get_route_reads_two_keys_witness :
  get_route sample_cache
    (serving (PDict [("ruta_landing", PStr "/a/$ENTIDAD"); ("formato", PInt 1)]))
    "ventas" "ACME"
  = get_route sample_cache
      (serving (PDict [("ruta_landing", PStr "/a/$ENTIDAD")])) "ventas" "ACME".
Proof.
  apply (ResolverMore.get_route_reads_two_keys sample_cache _ _ "ventas" "ACME"
           "params\ventas.json"
           [("ruta_landing", PStr "/a/$ENTIDAD"); ("formato", PInt 1)]
           [("ruta_landing", PStr "/a/$ENTIDAD")]);
    by_computing.
Defined.

Lemma get_route_primary_wins_witness :
  get_route sample_cache
    (serving (PDict [("ruta_landing", PStr "/a/$ENTIDAD");
                     ("directorio_de_archivo_en_hdfs", PInt 7)]))
    "ventas" "ACME"
  = get_route sample_cache
      (serving (PDict [("ruta_landing", PStr "/a/$ENTIDAD")])) "ventas" "ACME".
Proof.
  apply (ResolverMore.get_route_primary_wins sample_cache _ _ "ventas" "ACME"
           "params\ventas.json"
           [("ruta_landing", PStr "/a/$ENTIDAD");
            ("directorio_de_archivo_en_hdfs", PInt 7)]
           [("ruta_landing", PStr "/a/$ENTIDAD")] "/a/$ENTIDAD");
    [by_computing | by_computing | by_computing | | by_computing].
  split; [reflexivity | vm_compute; discriminate].
Defined.

Lemma get_route_without_placeholder_witness :
  get_route sample_cache (serving (PDict [("ruta_landing", PStr " /data/raw ")]))
    "ventas" "ACME"
  = Ret (Some "/data/raw", None).
Proof.
  apply (ResolverMore.get_route_without_placeholder sample_cache _ "ventas" "ACME"
           "params\ventas.json" [("ruta_landing", PStr " /data/raw ")]
           " /data/raw ");
    [by_computing | by_computing | | by_computing].
  left. split; [reflexivity | vm_compute; discriminate].
Defined.

Lemma get_route_not_a_dictionary_witness :
  get_route sample_cache (serving (PList [PStr "a"; PInt 1])) "ventas" "ACME"
  = Ret (None, Some "NO_VALID_ROUTE_KEY").
Proof.
  apply (proj1 (ResolverMore.get_route_not_a_dictionary sample_cache
                  (serving (PList [PStr "a"; PInt 1])) "ventas" "ACME"
                  "params\ventas.json" (PList [PStr "a"; PInt 1])
                  sample_indexed ltac:(by_computing)));
    by_computing.
Defined.

Lemma build_json_cache_sound_witness :
  (∅ : gmap string string) !! "stock" = Some (win_join "atlas" "stock.json")
  \/ from_params win_join sample_dirs "stock" (win_join "atlas" "stock.json")
  \/ from_atlas win_join sample_dirs "stock" (win_join "atlas" "stock.json").
Proof.
  apply (build_json_cache_sound win_join sample_dirs ∅ "stock").
  by_computing.
Defined.

Lemma build_json_cache_domain_witness :
  is_Some (build_json_cache win_join sample_dirs ∅ !! "ventas").
Proof.
  apply (proj2 (build_json_cache_domain win_join sample_dirs "ventas")).
  left. exists ["ventas.json"; "notes.txt"], "ventas.json".
  split; [reflexivity |]. split; [by left |]. split; by_computing.
Defined.

Lemma sample_no_config files :
  files = ["ventas.json"; "notes.txt"] \/ files = ["ventas.json"; "stock.json"] ->
  no_config_for "clientes" files.
Proof.
  intros [-> | ->] f Hf [He Hd];
    repeat (apply elem_of_cons in Hf as [-> | Hf]);
    try (by apply elem_of_nil in Hf); vm_compute in He, Hd; discriminate.
Defined.

Lemma build_json_cache_other_witness :
  build_json_cache win_join sample_dirs ∅ !! "clientes" = None.
Proof.
  rewrite (build_json_cache_other win_join sample_dirs ∅ "clientes");
    [reflexivity | |].
  - intros listing [= <-]. apply sample_no_config. by left.
  - intros walk [= <-]. constructor; [| constructor].
    apply sample_no_config. by right.
Defined.

Lemma main_stops_at_first_raise_witness :
  status (main win_join numeric_env sample_before) = Uncaught AttributeError
  /\ files_after (main win_join numeric_env sample_before) = sample_before.
Proof.
  apply (main_stops_at_first_raise win_join numeric_env sample_before
           [] (sample_row "0" "ventas" "ACME")
           [sample_row "1" "clientes" "ACME"; sample_row "2" "stock" "Beta"]
           AttributeError).
  - reflexivity.
  - intros r Hr. by apply elem_of_nil in Hr.
  - by_computing.
Defined.

Lemma sample_run_finished :
  status (main win_join (sample_env Written) sample_before) = Finished.
Proof. by_computing. Defined.

Lemma main_saved_table_witness :
  csv_file (files_after (main win_join (sample_env Written) sample_before))
  = Table (map (resolve_row (build_json_cache win_join sample_dirs ∅) sample_load)
             sample_rows).
Proof.
  exact (proj1 (main_saved_table win_join (sample_env Written) sample_before
                  sample_rows eq_refl sample_run_finished)).
Defined.

Lemma main_twice_witness :
  main win_join (sample_env Written)
    (files_after (main win_join (sample_env Written) sample_before))
  = main win_join (sample_env Written) sample_before.
Proof.
  exact (main_twice win_join (sample_env Written) sample_before sample_rows
           eq_refl sample_run_finished).
Defined.

Lemma main_halts_clean_witness :
  files_after (main win_join (sample_env RaisesPermissionError) sample_before)
  = sample_before.
Proof.
  apply (proj2 (main_halts_clean win_join (sample_env RaisesPermissionError)
                  sample_before)).
  by_computing.
Defined.

Lemma main_summary_totals_witness :
  exists s,
    main_summary win_join (sample_env Written) sample_before = Some s
    /\ total_rows s = 3
    /\ total_rows s = successful_routes s + failed_routes s.
Proof.
  destruct (main_summary win_join (sample_env Written) sample_before)
    as [s|] eqn:Hs; [| vm_compute in Hs; discriminate].
  exists s. split; [reflexivity |].
  destruct (main_summary_totals win_join (sample_env Written) sample_before
              sample_rows s eq_refl Hs) as (Htotal & _ & Hsum).
  split; [exact Htotal | exact Hsum].
Defined.

Lemma count_errors_keys_witness :
  counted "FILE_NOT_FOUND" = true
  /\ count_errors [Some "FILE_NOT_FOUND: a.json"; Some "NO_VALID_ROUTE_KEY";
                   Some "/data/acme/raw"] !! "NO_VALID_ROUTE_KEY" = None.
Proof.
  destruct (count_errors_keys [Some "FILE_NOT_FOUND: a.json";
                               Some "NO_VALID_ROUTE_KEY"; Some "/data/acme/raw"])
    as [Hkeys Hnone].
  split; [| exact Hnone].
  apply (Hkeys "FILE_NOT_FOUND" 1). by_computing.
Defined.

Lemma main_summary_file_not_found_witness :
  exists s,
    main_summary win_join (sample_env Written) sample_before = Some s
    /\ default 0 (error_counts s !! "FILE_NOT_FOUND") = 1.
Proof.
  destruct (main_summary win_join (sample_env Written) sample_before)
    as [s|] eqn:Hs; [| vm_compute in Hs; discriminate].
  exists s. split; [reflexivity |].
  rewrite (main_summary_file_not_found win_join (sample_env Written)
             sample_before sample_rows s eq_refl Hs); [by_computing |].
  intros route Hin.
  change (successes (build_json_cache win_join (dirs (sample_env Written)) ∅)
            (load (sample_env Written)) sample_rows)
    with ["/data/acme/raw"; "/hdfs/beta/stock"] in Hin.
  repeat (apply elem_of_cons in Hin as [-> | Hin]);
    [| | by apply elem_of_nil in Hin]; vm_compute; discriminate.
Defined.

Lemma get_route_from_flat_file_witness :
  get_route (build_json_cache win_join sample_dirs ∅) sample_load "ventas" "ACME"
  = Ret (Some "/data/acme/raw", None).
Proof.
  apply (get_route_from_flat_file win_join sample_dirs ∅ sample_load
           "ventas" "ACME" ["ventas.json"; "notes.txt"] "ventas.json"
           [("ruta_landing", PStr " /data/$ENTIDAD/raw ")]
           " /data/$ENTIDAD/raw ").
  - reflexivity.
  - by left.
  - split; by_computing.
  - by_computing.
  - left. split; [reflexivity | vm_compute; discriminate].
Defined.

Lemma get_route_without_file_witness :
  get_route (build_json_cache win_join sample_dirs ∅) sample_load
    "clientes" "ACME"
  = Ret (None, Some "FILE_NOT_FOUND: clientes.json").
Proof.
  apply (get_route_without_file win_join sample_dirs sample_load
           "clientes" "ACME").
  - intros listing [= <-]. apply sample_no_config. by left.
  - intros walk [= <-]. constructor; [| constructor].
    apply sample_no_config. by right.
Defined.

End MoreExamples.
